(** * Byte-plane splitting codec: a shallow embedding of
      [src/compressor.py] and of the transform pair of [benchmark.py].

    Python [bytes] are [list byte], Python integers are [Z], a file opened
    for reading is the list of bytes not yet consumed, a file opened for
    writing is the list of bytes written so far.  The zstd objects are an
    abstract [Backend]; exceptions are values of [exn].

    Part I holds the model, Part II the facts proved about it, Part III
    further facts about the rest of the two programs. *)

From Stdlib Require Import String.
From Stdlib Require Import List ZArith Lia Bool Arith.
From Stdlib Require Import Init.Byte Strings.Byte.
Import ListNotations.

Set Implicit Arguments.

(** * Part I: the model *)

(** Python's [len]. *)
Definition len {A : Type} (l : list A) : Z := Z.of_nat (length l).

(** ** Python sequence operations *)

Module Py.

Section Slices.
Context {A : Type}.

(** Normalisation of one slice bound against a sequence of [n] items: a
    negative bound counts from the end, and every bound is clipped to
    [0..n]. *)
Definition clamp (n : nat) (i : Z) : nat :=
  Z.to_nat (if (i <? 0)%Z
            then Z.max 0 (Z.of_nat n + i)
            else Z.min (Z.of_nat n) i).

(** [l[lo:hi]]; [None] is an omitted bound. *)
Definition slice (l : list A) (lo hi : option Z) : list A :=
  let n := length l in
  let a := match lo with None => 0 | Some i => clamp n i end in
  let b := match hi with None => n | Some j => clamp n j end in
  firstn (b - a) (skipn a l).

(** [l[0::2]]: the items at positions 0, 2, 4, ... *)
Fixpoint every_other (l : list A) : list A :=
  match l with
  | [] => []
  | x :: r => x :: match r with
                   | [] => []
                   | _ :: r' => every_other r'
                   end
  end.

(** [l[start::2]] for a start inside [0..len l]. *)
Definition stride2 (start : nat) (l : list A) : list A :=
  every_other (skipn start l).

(** [f.read(n)] on a binary file whose unread part is [s]: the bytes
    returned and the unread part left.  A negative [n] reads to the end of
    the file; otherwise fewer than [n] bytes come back only at the end. *)
Definition read (n : Z) (s : list A) : list A * list A :=
  if (n <? 0)%Z then (s, [])
  else (firstn (Z.to_nat n) s, skipn (Z.to_nat n) s).

End Slices.

End Py.

(** ** Exceptions *)

Inductive exn : Type :=
| struct_error        (* struct.error, from struct.pack / struct.unpack *)
| ZstdError           (* zstandard.ZstdError, raised by the backend *)
| ValueError          (* numpy: could not broadcast input array *)
| ZeroDivisionError.  (* the ratio printed at the end of compress_file *)

(** How a call ends.  [OutOfFuel] belongs to the model only: the loops
    recurse on a counter, and [compress_file] and [decompress_file] start
    them with a counter they provably never exhaust. *)
Inductive outcome : Type :=
| Returned
| Raised (e : exn)
| OutOfFuel.

(** ** The numpy operations the codec uses *)

Module Np.

Section Arrays.
Context {A : Type}.

(** Shape check of [target[...] = src] for one-dimensional arrays: [src]
    must have as many items as the target view has slots, or exactly one
    item, which is then repeated. *)
Definition broadcast (slots : nat) (src : list A) : option (list A) :=
  if Nat.eqb (length src) slots then Some src
  else match src with
       | [x] => Some (repeat x slots)
       | _ => None
       end.

(** Writes [vals] over positions 0, 2, 4, ... of [arr]. *)
Fixpoint scatter (arr vals : list A) : list A :=
  match arr, vals with
  | _ :: r, v :: vals' =>
      v :: match r with
           | [] => []
           | y :: r' => y :: scatter r' vals'
           end
  | _, _ => arr
  end.

(** [arr[start::2] = src]. *)
Definition assign_stride2 (start : nat) (arr src : list A)
  : exn + list A :=
  match broadcast (length (Py.stride2 start arr)) src with
  | None => inl ValueError
  | Some vals => inr (firstn start arr ++ scatter (skipn start arr) vals)
  end.

End Arrays.

(** [np.empty(n, dtype=np.uint8)]: [n] slots of unspecified content.  The
    model fills them with zero bytes; [assignments_overwrite_array] in
    Part II shows that what the codec builds does not depend on that
    content. *)
Definition empty (n : Z) : list byte := repeat x00 (Z.to_nat n).

End Np.

(** ** [struct.pack('<II', a, b)] and [struct.unpack('<II', h)] *)

Module Struct.

Local Open Scope Z_scope.

Definition byte_of_Z (z : Z) : byte :=
  match Byte.of_N (Z.to_N z) with
  | Some b => b
  | None => x00
  end.

Definition Z_of_byte (b : byte) : Z := Z.of_N (Byte.to_N b).

(** The four bytes of an unsigned 32-bit integer, least significant
    first. *)
Definition u32_le (v : Z) : list byte :=
  [ byte_of_Z (v mod 256);
    byte_of_Z ((v / 256) mod 256);
    byte_of_Z ((v / 65536) mod 256);
    byte_of_Z ((v / 16777216) mod 256) ].

Definition le_to_Z (bs : list byte) : Z :=
  fold_right (fun b acc => Z_of_byte b + 256 * acc) 0 bs.

Definition fits_u32 (v : Z) : bool := (0 <=? v) && (v <? 2 ^ 32).

(** The format ['I'] requires [0 <= number <= 4294967295]; any other
    argument raises [struct.error]. *)
Definition pack_II (a b : Z) : exn + list byte :=
  if fits_u32 a && fits_u32 b then inr (u32_le a ++ u32_le b)
  else inl struct_error.

(** [unpack] requires a buffer of exactly 8 bytes. *)
Definition unpack_II (h : list byte) : exn + (Z * Z) :=
  match h with
  | [a0; a1; a2; a3; b0; b1; b2; b3] =>
      inr (le_to_Z [a0; a1; a2; a3], le_to_Z [b0; b1; b2; b3])
  | _ => inl struct_error
  end.

End Struct.

(** ** The backend compressor

    [zstd.ZstdCompressor(level).compress] and
    [zstd.ZstdDecompressor().decompress]: bytes in, bytes out, the
    decompressor raising [ZstdError] on data it rejects ([None]). *)

Class Backend : Type := {
  compress : Z -> list byte -> list byte;
  decompress : list byte -> option (list byte)
}.

(** The contract of a backend: decompression gives back what was given to
    compression. *)
Definition lossless (B : Backend) : Prop :=
  forall (level : Z) (b : list byte), decompress (compress level b) = Some b.

(** A backend whose decompressor rejects the frame of a non-empty buffer
    when the frame was cut short (zstd reports a truncated frame as an
    error). *)
Definition rejects_truncation (B : Backend) : Prop :=
  forall (level : Z) (b : list byte) (k : nat),
    b <> [] ->
    (k < length (compress level b))%nat ->
    decompress (firstn k (compress level b)) = None.

(** ** [src/compressor.py] *)

Module Compressor.

Local Open Scope Z_scope.

Section WithBackend.
Context {zstd : Backend}.

(** Step 1 of the loop of [compress_file], "Byte Splitting". *)
Definition byte_splitting (chunk : list byte) : list byte :=
  let original_len := len chunk in
  let '(data_even, last_byte) :=
    if negb (original_len mod 2 =? 0)
    then (Py.slice chunk None (Some (-1)), Py.slice chunk (Some (-1)) None)
    else (chunk, []) in
  let arr := data_even in
  let bytes_even := Py.stride2 0 arr in
  let bytes_odd := Py.stride2 1 arr in
  bytes_even ++ bytes_odd ++ last_byte.

(** Step 4 of the loop of [decompress_file], "Reverse Byte Splitting":
    the bytes the iteration writes, or the exception numpy raises. *)
Definition reverse_byte_splitting (original_len : Z)
  (transformed_data : list byte) : exn + list byte :=
  let split_len := original_len / 2 in
  let bytes_even := Py.slice transformed_data None (Some split_len) in
  let bytes_odd :=
    Py.slice transformed_data (Some split_len) (Some (split_len * 2)) in
  let reconstructed := Np.empty (split_len * 2) in
  match Np.assign_stride2 0 reconstructed bytes_even with
  | inl e => inl e
  | inr reconstructed =>
      match Np.assign_stride2 1 reconstructed bytes_odd with
      | inl e => inl e
      | inr reconstructed =>
          inr (reconstructed ++
               if negb (original_len mod 2 =? 0)
               then Py.slice transformed_data (Some (-1)) None
               else [])
      end
  end.

(** The variables of [compress_file] that live across iterations. *)
Record encoder : Type := {
  enc_in : list byte;          (* f_in: bytes not read yet *)
  enc_out : list byte;         (* f_out: bytes written so far *)
  total_original : Z;
  total_compressed : Z
}.

(** The [while True] loop of [compress_file]. *)
Fixpoint compress_loop (fuel : nat) (chunk_size level : Z) (s : encoder)
  : encoder * outcome :=
  match fuel with
  | O => (s, OutOfFuel)
  | S fuel' =>
      let '(chunk, rest) := Py.read chunk_size (enc_in s) in
      match chunk with
      | [] => ({| enc_in := rest; enc_out := enc_out s;
                  total_original := total_original s;
                  total_compressed := total_compressed s |}, Returned)
      | _ :: _ =>
          let original_len := len chunk in
          let transformed_data := byte_splitting chunk in
          let compressed_data := compress level transformed_data in
          let compressed_len := len compressed_data in
          match Struct.pack_II original_len compressed_len with
          | inl e =>
              ({| enc_in := rest; enc_out := enc_out s;
                  total_original := total_original s + original_len;
                  total_compressed := total_compressed s + compressed_len |},
               Raised e)
          | inr header =>
              compress_loop fuel' chunk_size level
                {| enc_in := rest;
                   enc_out := enc_out s ++ header ++ compressed_data;
                   total_original := total_original s + original_len;
                   total_compressed := total_compressed s + compressed_len |}
          end
      end
  end.

(** The state of the files and counters when the [with] block of
    [compress_file] is left, and how it was left. *)
Definition compress_run (input : list byte) (chunk_size level : Z)
  : encoder * outcome :=
  compress_loop (S (length input)) chunk_size level
    {| enc_in := input; enc_out := [];
       total_original := 0; total_compressed := 0 |}.

(** [compress_file(input_path, output_path, chunk_size, level)]: the
    content of the output file after the call, and how the call ended.
    After the files are closed the summary divides [total_original] by
    [total_compressed]. *)
Definition compress_file (input : list byte) (chunk_size level : Z)
  : list byte * outcome :=
  let '(s, o) := compress_run input chunk_size level in
  (enc_out s,
   match o with
   | Returned =>
       if total_compressed s =? 0 then Raised ZeroDivisionError
       else Returned
   | _ => o
   end).

(** The [while True] loop of [decompress_file]: the bytes written to the
    output file and how the loop ended. *)
Fixpoint decompress_loop (fuel : nat) (f_in f_out : list byte)
  : list byte * outcome :=
  match fuel with
  | O => (f_out, OutOfFuel)
  | S fuel' =>
      let '(header, f_in) := Py.read 8 f_in in
      match header with
      | [] => (f_out, Returned)
      | _ :: _ =>
          match Struct.unpack_II header with
          | inl e => (f_out, Raised e)
          | inr (original_len, compressed_len) =>
              let '(compressed_data, f_in) := Py.read compressed_len f_in in
              match decompress compressed_data with
              | None => (f_out, Raised ZstdError)
              | Some transformed_data =>
                  match reverse_byte_splitting original_len
                          transformed_data with
                  | inl e => (f_out, Raised e)
                  | inr restored =>
                      decompress_loop fuel' f_in (f_out ++ restored)
                  end
              end
          end
      end
  end.

(** [decompress_file(input_path, output_path)]. *)
Definition decompress_file (input : list byte) : list byte * outcome :=
  decompress_loop (S (length input)) input [].

(** *** Vocabulary of the specification *)

(** The chunks the encoder reads from [input]: successive reads of
    [chunk_size] bytes up to the first empty one. *)
Fixpoint chunks (fuel : nat) (chunk_size : Z) (input : list byte)
  : list (list byte) :=
  match fuel with
  | O => []
  | S fuel' =>
      let '(chunk, rest) := Py.read chunk_size input in
      match chunk with
      | [] => []
      | _ :: _ => chunk :: chunks fuel' chunk_size rest
      end
  end.

Definition chunks_of (chunk_size : Z) (input : list byte)
  : list (list byte) :=
  chunks (S (length input)) chunk_size input.

(** The block of the container format for one chunk:
    [original_len:u32-LE compressed_len:u32-LE payload]. *)
Definition block (level : Z) (chunk : list byte) : list byte :=
  let payload := compress level (byte_splitting chunk) in
  Struct.u32_le (len chunk) ++ Struct.u32_le (len payload) ++ payload.

(** Whether both header fields of the block of [chunk] fit in 32 bits. *)
Definition block_fits (level : Z) (chunk : list byte) : bool :=
  Struct.fits_u32 (len chunk) &&
  Struct.fits_u32 (len (compress level (byte_splitting chunk))).

(** *** The script under [if __name__ == "__main__"] *)

(** The defaults of [compress_file]. *)
Definition default_chunk_size : Z := 50 * 1024 * 1024.
Definition default_level : Z := 3.

(** How the script ends: the input file is missing; a call ended otherwise
    than by returning, which nothing catches; or the size verification line
    was printed, with [OK] or [FAILED]. *)
Inductive script_end : Type :=
| NotFound
| Uncaught (o : outcome)
| SizeVerification (ok : bool).

(** The script, on the content of [INPUT_FILE] ([None] when
    [os.path.exists] is false).  The verification compares the sizes of
    the input file and of the restored file. *)
Definition main (INPUT_FILE : option (list byte)) : script_end :=
  match INPUT_FILE with
  | None => NotFound
  | Some data =>
      let '(COMPRESSED_FILE, o) :=
        compress_file data default_chunk_size default_level in
      match o with
      | Returned =>
          let '(RESTORED_FILE, o') := decompress_file COMPRESSED_FILE in
          match o' with
          | Returned =>
              let orig_size := len data in
              let rest_size := len RESTORED_FILE in
              SizeVerification (orig_size =? rest_size)
          | _ => Uncaught o'
          end
      | _ => Uncaught o
      end
  end.

End WithBackend.

(** [split] as the specification words it, by index arithmetic: the bytes
    at even positions of the first [m = n - n mod 2] bytes, then those at
    odd positions, then [chunk[n-1]] when [n] is odd. *)
Definition split_spec (chunk : list byte) : list byte :=
  let n := length chunk in
  let m := (n - n mod 2)%nat in
  map (fun i => nth (2 * i) chunk x00) (seq 0 (m / 2)) ++
  map (fun i => nth (2 * i + 1) chunk x00) (seq 0 (m / 2)) ++
  (if Nat.eqb (n mod 2) 1 then [nth (n - 1) chunk x00] else []).

End Compressor.

(** ** The transform pair of [benchmark.py] *)

Module Benchmark.

Local Open Scope Z_scope.

Definition split_bytes (data : list byte) : list byte :=
  let data :=
    if negb (len data mod 2 =? 0) then Py.slice data None (Some (-1))
    else data in
  let arr := data in
  let bytes_even := Py.stride2 0 arr in
  let bytes_odd := Py.stride2 1 arr in
  bytes_even ++ bytes_odd.

Definition unsplit_bytes (data : list byte) : exn + list byte :=
  let mid := len data / 2 in
  let bytes_even := Py.slice data None (Some mid) in
  let bytes_odd := Py.slice data (Some mid) None in
  let reconstructed := Np.empty (len data) in
  match Np.assign_stride2 0 reconstructed bytes_even with
  | inl e => inl e
  | inr reconstructed =>
      match Np.assign_stride2 1 reconstructed bytes_odd with
      | inl e => inl e
      | inr reconstructed => inr reconstructed
      end
  end.

Section WithBackend.
Context {zstd : Backend}.

Definition compress_custom (data : list byte) (level : Z) : list byte :=
  let split_data := split_bytes data in
  compress level split_data.

Definition decompress_custom (data : list byte) : exn + list byte :=
  match decompress data with
  | None => inl ZstdError
  | Some decompressed => unsplit_bytes decompressed
  end.

End WithBackend.

(** What [benchmark_compressor] can end with besides its report: an
    exception of one of the two functions it is given, or its own failed
    [assert]. *)
Inductive bench_exn : Type :=
| Propagated (e : exn)
| AssertionError.

(** A number of the report: an integer, or the float quotient of two
    integers, kept as its two operands. *)
Inductive number : Type :=
| Int (z : Z)
| TrueDiv (a b : Z).

(** The dictionary [benchmark_compressor] returns, without its two
    wall-clock entries. *)
Record report : Type := {
  name : string;
  ratio : number;
  size_mb : number
}.

(** [benchmark_compressor(name, compress_func, decompress_func)], with the
    global [TEST_DATA] as a parameter. *)
Definition benchmark_compressor (TEST_DATA : list byte) (name : string)
  (compress_func decompress_func : list byte -> exn + list byte)
  : bench_exn + report :=
  match compress_func TEST_DATA with
  | inl e => inl (Propagated e)
  | inr compressed =>
      let size := len compressed in
      let ratio :=
        if 0 <? size then TrueDiv (len TEST_DATA) size else Int 0 in
      match decompress_func compressed with
      | inl e => inl (Propagated e)
      | inr decompressed =>
          if len decompressed =? len TEST_DATA
          then inr {| name := name; ratio := ratio;
                      size_mb := TrueDiv size (1024 * 1024) |}
          else inl AssertionError
      end
  end.

(** *** The files of the benchmark *)

Definition INPUT_FILE : string := "model.safetensors".
Definition CHUNK_SIZE : Z := 100 * 1024 * 1024.
Definition TEMP_INPUT : string := "benchmark_sample.bin".
Definition TEMP_COMPRESSED : string := "benchmark_sample.zst".
Definition TEMP_RESTORED : string := "benchmark_sample.restored".

(** The directory the benchmark runs in: the content of each path that
    names a file. *)
Definition fs : Type := string -> option (list byte).

Definition path_exists (files : fs) (f : string) : bool :=
  match files f with
  | Some _ => true
  | None => false
  end.

Definition os_remove (files : fs) (f : string) : fs :=
  fun p => if String.eqb p f then None else files p.

(** [open(f, "wb")] followed by one [write]. *)
Definition write_file (files : fs) (f : string) (data : list byte) : fs :=
  fun p => if String.eqb p f then Some data else files p.

(** [load_data()]: the new value of the global [TEST_DATA] and the
    directory afterwards.  [urandom] stands for [os.urandom]. *)
Definition load_data (urandom : Z -> list byte) (files : fs)
  : list byte * fs :=
  let TEST_DATA :=
    match files INPUT_FILE with
    | Some content => fst (Py.read CHUNK_SIZE content)
    | None => urandom CHUNK_SIZE
    end in
  (TEST_DATA, write_file files TEMP_INPUT TEST_DATA).

Definition cleanup (files : fs) : fs :=
  fold_left
    (fun files f => if path_exists files f then os_remove files f else files)
    [TEMP_INPUT; TEMP_COMPRESSED; TEMP_RESTORED] files.

End Benchmark.

(** ** A small backend to run the codec on concrete inputs

    Every data byte is preceded by the marker [x01] and the frame ends
    with [x00], so a frame that was cut short is recognised. *)

Module Framed.

Fixpoint frame (b : list byte) : list byte :=
  match b with
  | [] => [x00]
  | x :: r => x01 :: x :: frame r
  end.

Fixpoint unframe (l : list byte) : option (list byte) :=
  match l with
  | [] => None
  | t :: r =>
      if Byte.eqb t x00 then
        match r with
        | [] => Some []
        | _ :: _ => None
        end
      else if Byte.eqb t x01 then
        match r with
        | [] => None
        | x :: r' => option_map (cons x) (unframe r')
        end
      else None
  end.

Definition backend : Backend := {|
  compress := fun _ b => frame b;
  decompress := unframe
|}.

End Framed.

(** * Part II: facts *)

(** Linear arithmetic with division and remainder by constants. *)
Ltac zlia := Z.div_mod_to_equations; lia.

(** ** Lists taken two items at a time *)

Section PairInduction.
Context {A : Type}.

Lemma list_pair_ind (P : list A -> Prop) :
  P [] -> (forall a, P [a]) ->
  (forall a b l, P l -> P (a :: b :: l)) ->
  forall l, P l.
Proof.
  intros H0 H1 H2 l.
  assert (H : P l /\ forall a, P (a :: l)).
  { induction l as [|x l [IH1 IH2]]; split; auto. }
  exact (proj1 H).
Qed.

Lemma every_other_length (l : list A) :
  length (Py.every_other l) = Nat.div2 (S (length l)).
Proof.
  induction l as [| a | a b l IH] using list_pair_ind; try reflexivity.
  cbn [Py.every_other length]. rewrite IH. reflexivity.
Qed.

Lemma every_other_nth (l : list A) (d : A) (i : nat) :
  nth i (Py.every_other l) d = nth (2 * i) l d.
Proof.
  revert i.
  induction l as [| a | a b l IH] using list_pair_ind; intros i.
  - destruct i; reflexivity.
  - destruct i as [|i]; [reflexivity|].
    cbn [Py.every_other]. replace (2 * S i)%nat with (S (S (2 * i))) by lia.
    destruct i; reflexivity.
  - destruct i as [|i]; [reflexivity|].
    replace (2 * S i)%nat with (S (S (2 * i))) by lia.
    cbn [Py.every_other nth]. apply IH.
Qed.

Lemma div2_even_half (n : nat) :
  Nat.even n = true -> Nat.div2 (S n) = Nat.div2 n /\ (2 * Nat.div2 n = n)%nat.
Proof.
  intros H. apply Nat.even_spec in H. destruct H as [m ->].
  rewrite Nat.div2_succ_double, Nat.div2_double. split; reflexivity.
Qed.

(** The even plane of a list, as a table of its items. *)
Lemma every_other_table (l : list A) (d : A) :
  Py.every_other l
  = map (fun i => nth (2 * i) l d) (seq 0 (Nat.div2 (S (length l)))).
Proof.
  apply nth_ext with (d := d) (d' := d).
  - now rewrite every_other_length, length_map, length_seq.
  - intros i Hi. rewrite every_other_length in Hi.
    rewrite every_other_nth.
    set (f := fun i => nth (2 * i) l d).
    rewrite (nth_indep (map f _) d (f 0%nat))
      by now rewrite length_map, length_seq.
    rewrite map_nth, seq_nth by assumption.
    reflexivity.
Qed.

(** The odd plane likewise. *)
Lemma every_other_tail_table (l : list A) (d : A) :
  Py.every_other (skipn 1 l)
  = map (fun i => nth (2 * i + 1) l d) (seq 0 (Nat.div2 (length l))).
Proof.
  destruct l as [|a l]; [reflexivity|].
  cbn [skipn length]. rewrite (every_other_table l d).
  apply map_ext. intros i.
  replace (2 * i + 1)%nat with (S (2 * i)) by lia. reflexivity.
Qed.

Lemma scatter_length (arr vals : list A) :
  length (Np.scatter arr vals) = length arr.
Proof.
  revert vals.
  induction arr as [| a | a b arr IH] using list_pair_ind;
    intros [|v vals]; try reflexivity.
  cbn [Np.scatter length]. now rewrite IH.
Qed.

Lemma broadcast_same (slots : nat) (src : list A) :
  length src = slots -> Np.broadcast slots src = Some src.
Proof.
  intros <-. unfold Np.broadcast. now rewrite Nat.eqb_refl.
Qed.

Lemma broadcast_length (slots : nat) (src vals : list A) :
  Np.broadcast slots src = Some vals -> length vals = slots.
Proof.
  unfold Np.broadcast. destruct (Nat.eqb_spec (length src) slots) as [E|_].
  - intros H. injection H as <-. exact E.
  - destruct src as [|x [|? ?]]; try discriminate.
    intros H. injection H as <-. apply repeat_length.
Qed.

(** Filling the even slots with the even plane of [p] and then the odd
    slots with its odd plane rebuilds [p], whatever [arr] held before. *)
Lemma scatter_weave (p : list A) :
  Nat.even (length p) = true ->
  forall arr, length arr = length p ->
  let a1 := Np.scatter arr (Py.every_other p) in
  firstn 1 a1 ++ Np.scatter (skipn 1 a1) (Py.every_other (skipn 1 p)) = p.
Proof.
  induction p as [| a | a b p IH] using list_pair_ind; intros Hev arr Hlen.
  - destruct arr; [reflexivity | discriminate].
  - discriminate.
  - destruct arr as [|x [|y arr]]; try discriminate.
    cbn [length] in Hlen. injection Hlen as Hlen.
    specialize (IH Hev arr Hlen). cbn zeta in IH.
    cbn [Py.every_other Np.scatter firstn skipn app].
    do 2 f_equal.
    assert (E : match p with [] => [] | _ :: r' => Py.every_other r' end
                = Py.every_other (skipn 1 p)) by (destruct p; reflexivity).
    rewrite E.
    destruct (Np.scatter arr (Py.every_other p)); exact IH.
Qed.

Lemma interleave_any_array (p arr : list A) :
  Nat.even (length p) = true ->
  length arr = length p ->
  match Np.assign_stride2 0 arr (Py.every_other p) with
  | inl e => inl e
  | inr a1 => Np.assign_stride2 1 a1 (Py.every_other (skipn 1 p))
  end = inr p.
Proof.
  intros Hev Hlen. unfold Np.assign_stride2, Py.stride2.
  change (skipn 0 arr) with arr. change (firstn 0 arr) with (@nil A).
  rewrite broadcast_same
    by now rewrite !every_other_length, Hlen.
  rewrite app_nil_l, broadcast_same.
  - f_equal. now apply scatter_weave.
  - rewrite !every_other_length, !length_skipn, scatter_length, Hlen.
    reflexivity.
Qed.

(** More generally, two strided assignments that both pass overwrite every
    slot: the array built does not depend on what [arr] held. *)
Lemma weave_any_array (arr : list A) :
  forall (arr' ve vo : list A),
    length arr = length arr' ->
    length ve = length (Py.every_other arr) ->
    length vo = length (Py.every_other (skipn 1 arr)) ->
    firstn 1 (Np.scatter arr ve) ++
      Np.scatter (skipn 1 (Np.scatter arr ve)) vo
    = firstn 1 (Np.scatter arr' ve) ++
        Np.scatter (skipn 1 (Np.scatter arr' ve)) vo.
Proof.
  induction arr as [| a | a b arr IH] using list_pair_ind;
    intros arr' ve vo Hlen He Ho.
  - destruct arr'; [reflexivity | discriminate].
  - destruct arr' as [|a' [|? ?]]; try discriminate.
    destruct ve as [|v [|? ?]]; try discriminate. reflexivity.
  - destruct arr' as [|a' [|b' arr']]; try discriminate.
    destruct ve as [|v ve]; [discriminate|].
    destruct vo as [|w vo]; [discriminate|].
    cbn [length] in Hlen. injection Hlen as Hlen.
    cbn [Py.every_other length] in He. injection He as He.
    assert (E : Py.every_other (skipn 1 (a :: b :: arr))
                = b :: Py.every_other (skipn 1 arr))
      by (destruct arr; reflexivity).
    rewrite E in Ho. cbn [length] in Ho. injection Ho as Ho.
    specialize (IH arr' ve vo Hlen He Ho).
    cbn [Np.scatter firstn skipn app]. do 2 f_equal.
    destruct (Np.scatter arr ve), (Np.scatter arr' ve); exact IH.
Qed.

Lemma assignments_overwrite_array (arr arr' e o : list A) :
  length arr = length arr' ->
  match Np.assign_stride2 0 arr e with
  | inl x => inl x
  | inr a1 => Np.assign_stride2 1 a1 o
  end
  = match Np.assign_stride2 0 arr' e with
    | inl x => inl x
    | inr a1 => Np.assign_stride2 1 a1 o
    end.
Proof.
  intros Hlen. unfold Np.assign_stride2, Py.stride2.
  change (skipn 0 arr) with arr. change (skipn 0 arr') with arr'.
  change (firstn 0 arr) with (@nil A). change (firstn 0 arr') with (@nil A).
  rewrite !every_other_length, <- Hlen.
  destruct (Np.broadcast _ e) as [ve|] eqn:Be; [|reflexivity].
  rewrite !app_nil_l, !every_other_length, !length_skipn, !scatter_length.
  rewrite <- Hlen.
  destruct (Np.broadcast _ o) as [vo|] eqn:Bo; [|reflexivity].
  f_equal. apply weave_any_array; try assumption.
  - rewrite every_other_length. eapply broadcast_length; eassumption.
  - rewrite every_other_length, length_skipn.
    eapply broadcast_length; eassumption.
Qed.

End PairInduction.

(** ** Slices *)

Section SliceFacts.
Context {A : Type}.
Implicit Types l p t : list A.

Lemma slice_prefix l (k : Z) :
  (0 <= k)%Z -> Py.slice l None (Some k) = firstn (Z.to_nat k) l.
Proof.
  intros Hk. unfold Py.slice, Py.clamp.
  destruct (Z.ltb_spec k 0) as [?|_]; [lia|].
  rewrite Nat.sub_0_r. change (skipn 0 l) with l.
  replace (Z.to_nat (Z.min (Z.of_nat (length l)) k))
    with (Nat.min (Z.to_nat k) (length l)) by lia.
  rewrite <- firstn_firstn. now rewrite firstn_all.
Qed.

Lemma slice_suffix l (a : Z) :
  (0 <= a)%Z -> Py.slice l (Some a) None = skipn (Z.to_nat a) l.
Proof.
  intros Ha. unfold Py.slice, Py.clamp.
  destruct (Z.ltb_spec a 0) as [?|_]; [lia|].
  destruct (Z.le_gt_cases (Z.of_nat (length l)) a) as [Hge|Hlt].
  - rewrite Z.min_l, Nat2Z.id, Nat.sub_diag, firstn_O by assumption.
    symmetry. apply skipn_all2. lia.
  - rewrite Z.min_r by lia.
    apply firstn_all2. rewrite length_skipn. lia.
Qed.

Lemma slice_range l (a b : Z) :
  (0 <= a <= b)%Z ->
  Py.slice l (Some a) (Some b)
  = firstn (Z.to_nat b - Z.to_nat a) (skipn (Z.to_nat a) l).
Proof.
  intros Hab. unfold Py.slice, Py.clamp.
  destruct (Z.ltb_spec a 0) as [?|_]; [lia|].
  destruct (Z.ltb_spec b 0) as [?|_]; [lia|].
  destruct (Z.le_gt_cases (Z.of_nat (length l)) a) as [Hge|Hlt].
  - rewrite (Z.min_l _ a), Nat2Z.id by assumption.
    rewrite skipn_all, (skipn_all2 l) by lia. now rewrite !firstn_nil.
  - rewrite (Z.min_r _ a) by lia.
    destruct (Z.le_gt_cases (Z.of_nat (length l)) b) as [Hb|Hb].
    + rewrite Z.min_l, Nat2Z.id by assumption.
      rewrite !firstn_all2; [reflexivity | |]; rewrite length_skipn; lia.
    + now rewrite Z.min_r by lia.
Qed.

Lemma slice_drop_last p (x : A) :
  Py.slice (p ++ [x]) None (Some (-1)%Z) = p.
Proof.
  unfold Py.slice, Py.clamp. rewrite length_app. cbn [length Z.ltb Z.compare].
  change (skipn 0 (p ++ [x])) with (p ++ [x]).
  replace (Z.to_nat (Z.max 0 (Z.of_nat (length p + 1) + -1)) - 0)%nat
    with (length p + 0)%nat by lia.
  rewrite firstn_app_2. cbn. apply app_nil_r.
Qed.

Lemma slice_last p (x : A) :
  Py.slice (p ++ [x]) (Some (-1)%Z) None = [x].
Proof.
  unfold Py.slice, Py.clamp. rewrite length_app. cbn [length Z.ltb Z.compare].
  replace (Z.to_nat (Z.max 0 (Z.of_nat (length p + 1) + -1)))
    with (length p) by lia.
  rewrite skipn_app, skipn_all, Nat.sub_diag.
  replace (length p + 1 - length p)%nat with 1%nat by lia. reflexivity.
Qed.

Lemma firstn_exact l t (k : nat) : length l = k -> firstn k (l ++ t) = l.
Proof.
  intros <-. now rewrite firstn_app, firstn_all, Nat.sub_diag, app_nil_r.
Qed.

Lemma skipn_exact l t (k : nat) : length l = k -> skipn k (l ++ t) = t.
Proof.
  intros <-. now rewrite skipn_app, skipn_all, Nat.sub_diag.
Qed.

Lemma read_whole_prefix l t (n : Z) :
  n = len l -> Py.read n (l ++ t) = (l, t).
Proof.
  intros ->. unfold Py.read, len.
  destruct (Z.ltb_spec (Z.of_nat (length l)) 0) as [?|_]; [lia|].
  rewrite Nat2Z.id.
  rewrite firstn_app, firstn_all, Nat.sub_diag, firstn_O, app_nil_r.
  rewrite skipn_app, skipn_all, Nat.sub_diag. reflexivity.
Qed.

Lemma len_parity l : ((len l mod 2 =? 0)%Z) = Nat.even (length l).
Proof.
  unfold len. destruct (Nat.even (length l)) eqn:E.
  - apply Nat.even_spec in E. destruct E as [m ->].
    apply Z.eqb_eq. zlia.
  - assert (O : Nat.odd (length l) = true)
      by (unfold Nat.odd; now rewrite E).
    apply Nat.odd_spec in O. destruct O as [m ->].
    apply Z.eqb_neq. zlia.
Qed.

(** A list of odd length is a list of even length and one more item. *)
Lemma odd_length_last l :
  Nat.even (length l) = false ->
  exists p x, l = p ++ [x] /\ Nat.even (length p) = true.
Proof.
  intros Hodd. induction l as [|x l0 _] using rev_ind; [discriminate|].
  exists l0, x. split; [reflexivity|].
  rewrite length_app, Nat.add_1_r, Nat.even_succ in Hodd.
  rewrite <- Nat.negb_odd. now rewrite Hodd.
Qed.

Lemma planes_length p :
  Nat.even (length p) = true ->
  length (Py.every_other p) = Nat.div2 (length p) /\
  length (Py.every_other (skipn 1 p)) = Nat.div2 (length p).
Proof.
  intros Hev. rewrite !every_other_length, length_skipn.
  destruct (div2_even_half _ Hev) as [E _]. split; [exact E|].
  destruct (length p) as [|n]; [reflexivity|].
  now replace (S n - 1)%nat with n by lia.
Qed.

End SliceFacts.

(** ** The byte-plane transform of the codec *)

Lemma double_mod_div (k : nat) :
  ((2 * k) mod 2 = 0 /\ (2 * k) / 2 = k)%nat.
Proof.
  rewrite (Nat.mul_comm 2 k). split.
  - apply Nat.Div0.mod_mul.
  - now apply Nat.div_mul.
Qed.

Lemma double_succ_mod (k : nat) : ((2 * k + 1) mod 2 = 1)%nat.
Proof.
  rewrite Nat.add_comm, (Nat.mul_comm 2 k), Nat.Div0.mod_add. reflexivity.
Qed.

Lemma byte_splitting_even (p : list byte) :
  Nat.even (length p) = true ->
  Compressor.byte_splitting p
  = Py.every_other p ++ Py.every_other (skipn 1 p).
Proof.
  intros Hev. unfold Compressor.byte_splitting, Py.stride2.
  rewrite len_parity, Hev. cbn [negb]. change (skipn 0 p) with p.
  now rewrite app_nil_r.
Qed.

Lemma byte_splitting_odd (p : list byte) (x : byte) :
  Nat.even (length p) = true ->
  Compressor.byte_splitting (p ++ [x])
  = Py.every_other p ++ Py.every_other (skipn 1 p) ++ [x].
Proof.
  intros Hev. unfold Compressor.byte_splitting, Py.stride2.
  rewrite len_parity, length_app, Nat.add_1_r, Nat.even_succ.
  rewrite <- Nat.negb_even, Hev. cbn [negb].
  rewrite slice_drop_last, slice_last. reflexivity.
Qed.

(** Every chunk is an even-length paired region followed by at most one
    byte, and its planar buffer is the two planes of the region followed
    by that byte. *)
Lemma byte_splitting_planes (chunk : list byte) :
  exists p t,
    chunk = p ++ t /\ Nat.even (length p) = true /\
    (length t <= 1)%nat /\ length t = (length chunk mod 2)%nat /\
    Compressor.byte_splitting chunk
    = Py.every_other p ++ Py.every_other (skipn 1 p) ++ t.
Proof.
  destruct (Nat.even (length chunk)) eqn:E.
  - exists chunk, []. rewrite !app_nil_r. repeat split; auto.
    + apply Nat.even_spec in E. destruct E as [m ->].
      symmetry. apply double_mod_div.
    + now apply byte_splitting_even.
  - destruct (odd_length_last _ E) as (p & x & -> & Hp).
    exists p, [x]. repeat split; auto.
    + rewrite length_app. cbn [length].
      apply Nat.even_spec in Hp. destruct Hp as [m ->].
      symmetry. apply double_succ_mod.
    + now apply byte_splitting_odd.
Qed.

Lemma byte_splitting_length (chunk : list byte) :
  length (Compressor.byte_splitting chunk) = length chunk.
Proof.
  destruct (byte_splitting_planes chunk) as (p & t & -> & Hp & _ & _ & ->).
  destruct (planes_length p Hp) as [LE LO].
  destruct (div2_even_half _ Hp) as [_ H2].
  rewrite !length_app, LE, LO. lia.
Qed.

(** The inverse transform on the planes of an even-length region followed
    by at most one byte. *)
Lemma reverse_planes (p t : list byte) :
  Nat.even (length p) = true ->
  (length t <= 1)%nat ->
  Compressor.reverse_byte_splitting (len (p ++ t))
    (Py.every_other p ++ Py.every_other (skipn 1 p) ++ t)
  = inr (p ++ t).
Proof.
  intros Hp Ht. unfold Compressor.reverse_byte_splitting.
  destruct (planes_length p Hp) as [LE LO].
  destruct (div2_even_half _ Hp) as [_ H2].
  set (k := Nat.div2 (length p)) in *.
  assert (Hk : (len (p ++ t) / 2 = Z.of_nat k)%Z).
  { unfold len. rewrite length_app. zlia. }
  rewrite Hk.
  rewrite slice_prefix, slice_range by lia.
  rewrite Nat2Z.id.
  replace (Z.to_nat (Z.of_nat k * 2) - k)%nat with k by lia.
  rewrite (firstn_exact _ _ LE), (skipn_exact _ _ LE), (firstn_exact _ _ LO).
  assert (W := @interleave_any_array _ p (Np.empty (Z.of_nat k * 2)) Hp).
  destruct (Np.assign_stride2 0 _ _) as [e|a1].
  { exfalso. enough (inl e = inr p :> exn + list byte) by discriminate.
    apply W. unfold Np.empty. rewrite repeat_length. lia. }
  rewrite W by (unfold Np.empty; rewrite repeat_length; lia).
  f_equal. f_equal.
  rewrite len_parity, length_app.
  destruct t as [|x [|y t]]; cbn [length] in *; try lia.
  - rewrite Nat.add_0_r, Hp. reflexivity.
  - rewrite Nat.add_1_r, Nat.even_succ, <- Nat.negb_even, Hp. cbn [negb].
    rewrite app_assoc. apply slice_last.
Qed.

Lemma reverse_byte_splitting_inverse (buf : list byte) :
  Compressor.reverse_byte_splitting (len buf) (Compressor.byte_splitting buf)
  = inr buf.
Proof.
  destruct (byte_splitting_planes buf) as (p & t & -> & Hp & Ht & _ & ->).
  now apply reverse_planes.
Qed.

Lemma byte_splitting_spec (chunk : list byte) :
  Compressor.byte_splitting chunk = Compressor.split_spec chunk.
Proof.
  destruct (byte_splitting_planes chunk) as (p & t & -> & Hp & Ht & Hmod & ->).
  unfold Compressor.split_spec. rewrite <- Hmod, length_app.
  replace (length p + length t - length t)%nat with (length p) by lia.
  destruct (div2_even_half _ Hp) as [Hs H2].
  assert (Hdiv : (length p / 2 = Nat.div2 (length p))%nat).
  { rewrite <- H2 at 1. apply double_mod_div. }
  rewrite Hdiv. f_equal; [|f_equal].
  - rewrite (every_other_table p x00), Hs.
    apply map_ext_in. intros i Hi. apply in_seq in Hi.
    symmetry. apply app_nth1. lia.
  - rewrite (every_other_tail_table p x00).
    apply map_ext_in. intros i Hi. apply in_seq in Hi.
    symmetry. apply app_nth1. lia.
  - destruct t as [|x [|y t]]; cbn [length] in *; try lia; [reflexivity|].
    cbn [Nat.eqb]. rewrite app_nth2 by lia.
    now replace (length p + 1 - 1 - length p)%nat with 0%nat by lia.
Qed.

(** C3.  The forward transform of a chunk of length [n] is the bytes at
    even positions of its first [m = n - n mod 2] bytes, then the bytes at
    odd positions of those [m] bytes, then [chunk[n-1]] when [n] is odd;
    its length is [n]; and the 7-byte input [00 .. 06] gives
    [00 02 04 01 03 05 06]. *)
Theorem forward_transform_layout :
  (forall chunk : list byte,
      Compressor.byte_splitting chunk = Compressor.split_spec chunk /\
      length (Compressor.byte_splitting chunk) = length chunk) /\
  Compressor.byte_splitting [x00; x01; x02; x03; x04; x05; x06]
  = [x00; x02; x04; x01; x03; x05; x06].
Proof.
  split; [|reflexivity].
  intros chunk. split.
  - apply byte_splitting_spec.
  - apply byte_splitting_length.
Qed.

(** C2.  The byte-plane transform round-trips on every buffer, the empty
    one and the one-byte one included: the forward transform keeps the
    length, and the inverse transform of [decompress_file], run with
    [original_len = len buf] on the forward transform of [buf], raises
    nothing and returns [buf]. *)
Theorem transform_round_trip :
  forall buf : list byte,
    length (Compressor.byte_splitting buf) = length buf /\
    Compressor.reverse_byte_splitting (len buf)
      (Compressor.byte_splitting buf) = inr buf.
Proof.
  intros buf. split.
  - apply byte_splitting_length.
  - apply reverse_byte_splitting_inverse.
Qed.

(** ** The transform pair of the benchmark *)

Lemma split_bytes_even (p : list byte) :
  Nat.even (length p) = true ->
  Benchmark.split_bytes p = Py.every_other p ++ Py.every_other (skipn 1 p).
Proof.
  intros Hev. unfold Benchmark.split_bytes, Py.stride2.
  rewrite len_parity, Hev. reflexivity.
Qed.

Lemma split_bytes_odd (p : list byte) (x : byte) :
  Nat.even (length p) = true ->
  Benchmark.split_bytes (p ++ [x])
  = Py.every_other p ++ Py.every_other (skipn 1 p).
Proof.
  intros Hev. unfold Benchmark.split_bytes, Py.stride2.
  rewrite len_parity, length_app, Nat.add_1_r, Nat.even_succ.
  rewrite <- Nat.negb_even, Hev. cbn [negb].
  rewrite slice_drop_last. reflexivity.
Qed.

Lemma unsplit_bytes_planes (p : list byte) :
  Nat.even (length p) = true ->
  Benchmark.unsplit_bytes (Py.every_other p ++ Py.every_other (skipn 1 p))
  = inr p.
Proof.
  intros Hp. unfold Benchmark.unsplit_bytes.
  destruct (planes_length p Hp) as [LE LO].
  destruct (div2_even_half _ Hp) as [_ H2].
  set (k := Nat.div2 (length p)) in *.
  assert (Hlen : len (Py.every_other p ++ Py.every_other (skipn 1 p))
                 = Z.of_nat (length p)).
  { unfold len. rewrite length_app, LE, LO. lia. }
  rewrite Hlen.
  assert (Hk : (Z.of_nat (length p) / 2 = Z.of_nat k)%Z) by zlia.
  rewrite Hk, slice_prefix, slice_suffix, Nat2Z.id by lia.
  rewrite (firstn_exact _ _ LE), (skipn_exact _ _ LE).
  assert (W := @interleave_any_array _ p (Np.empty (Z.of_nat (length p))) Hp).
  destruct (Np.assign_stride2 0 _ _) as [e|a1].
  { exfalso. enough (inl e = inr p :> exn + list byte) by discriminate.
    apply W. unfold Np.empty. rewrite repeat_length. lia. }
  rewrite W by (unfold Np.empty; rewrite repeat_length; lia).
  reflexivity.
Qed.

(** C8.  The benchmark's own transform pair round-trips on buffers of even
    length only: for [d] of even length [unsplit_bytes (split_bytes d)] is
    [d]; for [d] of odd length [split_bytes] drops the final byte (it
    yields what it yields on [d[:-1]]), so the round trip returns [d]
    without its last byte, which is not [d]. *)
Theorem benchmark_round_trip_even_only :
  forall d : list byte,
    (Nat.even (length d) = true ->
     Benchmark.unsplit_bytes (Benchmark.split_bytes d) = inr d) /\
    (Nat.even (length d) = false ->
     Benchmark.split_bytes d = Benchmark.split_bytes (removelast d) /\
     Benchmark.unsplit_bytes (Benchmark.split_bytes d) = inr (removelast d) /\
     Benchmark.unsplit_bytes (Benchmark.split_bytes d) <> inr d).
Proof.
  intros d. split; intros Hd.
  - rewrite split_bytes_even by assumption. now apply unsplit_bytes_planes.
  - destruct (odd_length_last _ Hd) as (p & x & -> & Hp).
    rewrite removelast_last, split_bytes_odd, split_bytes_even by assumption.
    rewrite unsplit_bytes_planes by assumption.
    repeat split. intros E. injection E as E.
    apply (f_equal (@length byte)) in E. rewrite length_app in E.
    cbn [length] in E. lia.
Qed.

Lemma benchmark_round_trip_even_only_witness :
  Benchmark.unsplit_bytes (Benchmark.split_bytes [x0a; x0b]) = inr [x0a; x0b]
  /\ Benchmark.unsplit_bytes (Benchmark.split_bytes [x0a; x0b; x0c])
     = inr [x0a; x0b].
Proof.
  split.
  - apply (proj1 (benchmark_round_trip_even_only [x0a; x0b])). reflexivity.
  - apply (proj2 (benchmark_round_trip_even_only [x0a; x0b; x0c])).
    reflexivity.
Defined.

(** ** The block header *)

Section HeaderFacts.
Import Struct.
Local Open Scope Z_scope.

Lemma Z_of_byte_range (b : byte) : 0 <= Z_of_byte b < 256.
Proof.
  unfold Z_of_byte. pose proof (Byte.to_N_bounded b). lia.
Qed.

Lemma Z_of_byte_of_Z (z : Z) : 0 <= z < 256 -> Z_of_byte (byte_of_Z z) = z.
Proof.
  intros Hz. unfold Z_of_byte, byte_of_Z.
  destruct (Byte.of_N (Z.to_N z)) as [b|] eqn:E.
  - apply Byte.to_of_N in E. rewrite E. lia.
  - apply Byte.of_N_None_iff in E. lia.
Qed.

Lemma fits_u32_spec (v : Z) : fits_u32 v = true <-> 0 <= v < 2 ^ 32.
Proof.
  unfold fits_u32. rewrite andb_true_iff, Z.leb_le, Z.ltb_lt. reflexivity.
Qed.

Lemma u32_le_length (v : Z) : length (u32_le v) = 4%nat.
Proof. reflexivity. Qed.

(** The four bytes are the little-endian digits of [v]. *)
Lemma le_to_Z_u32_le (v : Z) : 0 <= v < 2 ^ 32 -> le_to_Z (u32_le v) = v.
Proof.
  intros Hv. change (2 ^ 32) with 4294967296 in Hv.
  unfold u32_le, le_to_Z. cbn [fold_right].
  rewrite !Z_of_byte_of_Z by zlia. zlia.
Qed.

Lemma unpack_pack (a b : Z) :
  fits_u32 a = true -> fits_u32 b = true ->
  unpack_II (u32_le a ++ u32_le b) = inr (a, b).
Proof.
  intros Ha Hb. apply fits_u32_spec in Ha, Hb.
  change (unpack_II (u32_le a ++ u32_le b))
    with (@inr exn _ (le_to_Z (u32_le a), le_to_Z (u32_le b))).
  now rewrite !le_to_Z_u32_le.
Qed.

Lemma unpack_short (h : list byte) :
  length h <> 8%nat -> unpack_II h = inl struct_error.
Proof.
  intros H.
  do 9 (destruct h as [|? h]; try reflexivity). cbn in H. lia.
Qed.

Lemma pack_II_fits (a b : Z) :
  fits_u32 a && fits_u32 b = true ->
  pack_II a b = inr (u32_le a ++ u32_le b).
Proof. intros H. unfold pack_II. now rewrite H. Qed.

Lemma pack_II_overflow (a b : Z) :
  fits_u32 a && fits_u32 b = false -> pack_II a b = inl struct_error.
Proof. intros H. unfold pack_II. now rewrite H. Qed.

End HeaderFacts.

(** ** The encoder *)

Section EncoderFacts.
Context {zstd : Backend}.
Import Compressor.
Local Open Scope Z_scope.

Lemma read_split (n : Z) (l chunk rest : list byte) :
  Py.read n l = (chunk, rest) ->
  l = chunk ++ rest /\ (0 <= n -> len chunk <= n).
Proof.
  unfold Py.read. destruct (Z.ltb_spec n 0) as [Hn|Hn]; intros E;
    injection E as <- <-.
  - rewrite app_nil_r. split; [reflexivity | lia].
  - rewrite firstn_skipn. split; [reflexivity|].
    intros _. unfold len. rewrite length_firstn. lia.
Qed.

Lemma read_nothing (n : Z) (l rest : list byte) :
  Py.read n l = ([], rest) -> n <> 0 -> l = [].
Proof.
  unfold Py.read. destruct (Z.ltb_spec n 0) as [Hn|Hn]; intros E Hn0;
    injection E as E1 E2.
  - assumption.
  - destruct l as [|x l]; [reflexivity|].
    destruct (Z.to_nat n) eqn:T; [lia | discriminate].
Qed.

Lemma read_at_end (n : Z) : Py.read n (@nil byte) = ([], []).
Proof.
  unfold Py.read. destruct (n <? 0); [reflexivity|].
  now rewrite firstn_nil, skipn_nil.
Qed.

(** Every chunk holds at least one byte, and at most [chunk_size] bytes
    when [chunk_size] is a size. *)
Lemma chunks_bounds (fuel : nat) (chunk_size : Z) (l : list byte) :
  Forall (fun c => 1 <= len c /\ (0 <= chunk_size -> len c <= chunk_size))
         (chunks fuel chunk_size l).
Proof.
  revert l. induction fuel as [|fuel IH]; intros l; cbn [chunks].
  - constructor.
  - destruct (Py.read chunk_size l) as [chunk rest] eqn:R.
    destruct chunk as [|x chunk]; constructor.
    + apply read_split in R. destruct R as [_ R]. split; [|exact R].
      unfold len. cbn [length]. lia.
    + apply IH.
Qed.

(** The chunks are consecutive pieces of the input and cover it. *)
Lemma chunks_concat (fuel : nat) (chunk_size : Z) (l : list byte) :
  chunk_size <> 0 -> (length l < fuel)%nat ->
  concat (chunks fuel chunk_size l) = l.
Proof.
  intros Hcs. revert l. induction fuel as [|fuel IH]; intros l Hf; [lia|].
  cbn [chunks].
  destruct (Py.read chunk_size l) as [chunk rest] eqn:R.
  destruct chunk as [|x chunk].
  - symmetry. eapply read_nothing; eassumption.
  - apply read_split in R. destruct R as [-> _].
    cbn [concat]. rewrite IH; [reflexivity|].
    rewrite length_app in Hf. cbn [length] in Hf. lia.
Qed.

Lemma block_fits_pack (level : Z) (chunk : list byte) :
  Struct.pack_II (len chunk) (len (compress level (byte_splitting chunk)))
  = if block_fits level chunk
    then inr (Struct.u32_le (len chunk) ++
              Struct.u32_le (len (compress level (byte_splitting chunk))))
    else inl struct_error.
Proof. reflexivity. Qed.

(** What the loop has written when it stops: the blocks of the chunks it
    read, in order, up to the first chunk whose header cannot be packed. *)
Lemma compress_loop_blocks (fuel : nat) (chunk_size level : Z) :
  forall s : encoder,
    (length (enc_in s) < fuel)%nat ->
    exists done : list (list byte),
      enc_out (fst (compress_loop fuel chunk_size level s))
      = enc_out s ++ concat (map (block level) done) /\
      Forall (fun c => block_fits level c = true) done /\
      ((snd (compress_loop fuel chunk_size level s) = Returned /\
        chunks fuel chunk_size (enc_in s) = done) \/
       (snd (compress_loop fuel chunk_size level s) = Raised struct_error /\
        exists c rest,
          chunks fuel chunk_size (enc_in s) = done ++ c :: rest /\
          block_fits level c = false)).
Proof.
  induction fuel as [|fuel IH]; intros s Hf; [lia|].
  cbn [compress_loop chunks].
  destruct (Py.read chunk_size (enc_in s)) as [chunk rest] eqn:R.
  destruct chunk as [|x chunk].
  - exists []. cbn. rewrite app_nil_r. auto.
  - set (c := x :: chunk) in *.
    rewrite block_fits_pack.
    destruct (block_fits level c) eqn:F.
    + apply read_split in R. destruct R as [R _].
      match goal with
      | |- context [compress_loop fuel chunk_size level ?s1] =>
          destruct (IH s1) as (done & Hout & Hfits & Hend)
      end.
      { cbn [enc_in]. rewrite R, length_app in Hf. subst c.
        cbn [length] in Hf. lia. }
      cbn [enc_in enc_out] in Hout, Hend.
      exists (c :: done). split; [|split].
      * rewrite Hout. cbn [map concat]. unfold block.
        now rewrite <- !app_assoc.
      * now constructor.
      * destruct Hend as [[Ho Hc]|[Ho (c' & rest' & Hc & Hc')]].
        -- left. split; [exact Ho | now rewrite Hc].
        -- right. split; [exact Ho|].
           exists c', rest'. split; [now rewrite Hc | exact Hc'].
    + exists []. cbn [fst snd enc_out map concat]. rewrite app_nil_r.
      split; [reflexivity|]. split; [constructor|].
      right. split; [reflexivity|]. now exists c, (chunks fuel chunk_size rest).
Qed.

(** The same for a whole run of [compress_file]; in particular the loop
    never runs out of fuel. *)
Lemma compress_run_blocks (input : list byte) (chunk_size level : Z) :
  exists done : list (list byte),
    enc_out (fst (compress_run input chunk_size level))
    = concat (map (block level) done) /\
    Forall (fun c => block_fits level c = true) done /\
    ((snd (compress_run input chunk_size level) = Returned /\
      chunks_of chunk_size input = done) \/
     (snd (compress_run input chunk_size level) = Raised struct_error /\
      exists c rest,
        chunks_of chunk_size input = done ++ c :: rest /\
        block_fits level c = false)).
Proof.
  unfold compress_run, chunks_of.
  match goal with
  | |- context [compress_loop ?f chunk_size level ?s0] =>
      destruct (@compress_loop_blocks f chunk_size level s0)
        as (done & Hout & Hrest)
  end.
  { cbn [enc_in]. lia. }
  exists done. split; [exact Hout | exact Hrest].
Qed.

(** How [compress_file] ends, from how its loop ends. *)
Lemma compress_file_outcome (input : list byte) (chunk_size level : Z) :
  fst (compress_file input chunk_size level)
  = enc_out (fst (compress_run input chunk_size level)) /\
  (snd (compress_file input chunk_size level) = Raised struct_error <->
   snd (compress_run input chunk_size level) = Raised struct_error) /\
  (snd (compress_file input chunk_size level) <> Raised struct_error ->
   snd (compress_file input chunk_size level) = Returned \/
   snd (compress_file input chunk_size level) = Raised ZeroDivisionError).
Proof.
  unfold compress_file.
  destruct (compress_run_blocks input chunk_size level)
    as (done & _ & _ & Hend).
  destruct (compress_run input chunk_size level) as [s o].
  cbn [fst snd] in *. split; [reflexivity|].
  destruct Hend as [[-> _]|[-> _]].
  - destruct (total_compressed s =? 0); split;
      try (split; discriminate); auto.
  - split; [reflexivity|]. intros H. now contradiction H.
Qed.

End EncoderFacts.

(** ** The decoder *)

Section DecoderFacts.
Context {zstd : Backend}.
Import Compressor.
Local Open Scope Z_scope.

Lemma read_short (n : Z) (l : list byte) :
  len l <= n -> Py.read n l = (l, []).
Proof.
  intros H. unfold Py.read, len in *.
  destruct (Z.ltb_spec n 0) as [?|_]; [lia|].
  rewrite firstn_all2, skipn_all2 by lia. reflexivity.
Qed.

Lemma read_firstn_skipn (n : Z) (l : list byte) :
  0 <= n -> Py.read n l = (firstn (Z.to_nat n) l, skipn (Z.to_nat n) l).
Proof.
  intros H. unfold Py.read.
  destruct (Z.ltb_spec n 0) as [?|_]; [lia | reflexivity].
Qed.

(** An empty read where a header is expected ends the loop normally. *)
Lemma decompress_at_end (fuel : nat) (out : list byte) :
  decompress_loop (S fuel) [] out = (out, Returned).
Proof. reflexivity. Qed.

(** One to seven bytes where a header is expected: [struct.unpack] raises. *)
Lemma decompress_short_header (fuel : nat) (t out : list byte) :
  (1 <= length t <= 7)%nat ->
  decompress_loop (S fuel) t out = (out, Raised struct_error).
Proof.
  intros Ht. cbn [decompress_loop].
  rewrite read_short by (unfold len; lia).
  destruct t as [|x t]; [cbn in Ht; lia|].
  rewrite unpack_short by lia. reflexivity.
Qed.

(** One iteration on a complete header. *)
Lemma decompress_loop_step (fuel : nat) (hdr f_in out : list byte) :
  length hdr = 8%nat ->
  decompress_loop (S fuel) (hdr ++ f_in) out
  = match Struct.unpack_II hdr with
    | inl e => (out, Raised e)
    | inr (original_len, compressed_len) =>
        let '(compressed_data, f_in') := Py.read compressed_len f_in in
        match decompress compressed_data with
        | None => (out, Raised ZstdError)
        | Some transformed_data =>
            match reverse_byte_splitting original_len transformed_data with
            | inl e => (out, Raised e)
            | inr restored => decompress_loop fuel f_in' (out ++ restored)
            end
        end
    end.
Proof.
  intros H. cbn [decompress_loop].
  rewrite read_whole_prefix by (unfold len; rewrite H; reflexivity).
  destruct hdr; [discriminate | reflexivity].
Qed.

(** One iteration on a header whose fields fit 32 bits: the payload is the
    next [compressed_len] bytes, or all the bytes left when there are
    fewer. *)
Lemma decompress_loop_header (fuel : nat) (n c : Z) (f_in out : list byte) :
  Struct.fits_u32 n = true -> Struct.fits_u32 c = true ->
  decompress_loop (S fuel) (Struct.u32_le n ++ Struct.u32_le c ++ f_in) out
  = match decompress (firstn (Z.to_nat c) f_in) with
    | None => (out, Raised ZstdError)
    | Some transformed_data =>
        match reverse_byte_splitting n transformed_data with
        | inl e => (out, Raised e)
        | inr restored =>
            decompress_loop fuel (skipn (Z.to_nat c) f_in) (out ++ restored)
        end
    end.
Proof.
  intros Hn Hc. rewrite app_assoc, decompress_loop_step by reflexivity.
  rewrite unpack_pack by assumption.
  apply fits_u32_spec in Hc. now rewrite read_firstn_skipn by lia.
Qed.

(** One iteration on the block of a chunk. *)
Lemma decompress_block_step (fuel : nat) (level : Z)
  (c rest out : list byte) :
  block_fits level c = true ->
  decompress_loop (S fuel) (block level c ++ rest) out
  = match decompress (compress level (byte_splitting c)) with
    | None => (out, Raised ZstdError)
    | Some transformed_data =>
        match reverse_byte_splitting (len c) transformed_data with
        | inl e => (out, Raised e)
        | inr restored => decompress_loop fuel rest (out ++ restored)
        end
    end.
Proof.
  intros F. unfold block_fits in F. apply andb_true_iff in F.
  destruct F as [Fn Fc]. unfold block. rewrite <- !app_assoc.
  rewrite decompress_loop_header by assumption.
  unfold len. rewrite Nat2Z.id.
  now rewrite firstn_exact, skipn_exact.
Qed.

Lemma decompress_block (fuel : nat) (level : Z) (c rest out : list byte) :
  lossless zstd ->
  block_fits level c = true ->
  decompress_loop (S fuel) (block level c ++ rest) out
  = decompress_loop fuel rest (out ++ c).
Proof.
  intros L F. rewrite decompress_block_step by assumption.
  now rewrite L, reverse_byte_splitting_inverse.
Qed.

(** Decoding a run of blocks restores their chunks in order. *)
Lemma decompress_blocks (level : Z) (cs : list (list byte)) :
  lossless zstd ->
  Forall (fun c => block_fits level c = true) cs ->
  forall (fuel : nat) (rest out : list byte),
    decompress_loop (length cs + fuel) (concat (map (block level) cs) ++ rest)
      out
    = decompress_loop fuel rest (out ++ concat cs).
Proof.
  intros L. induction 1 as [|c cs Fc _ IH]; intros fuel rest out.
  - cbn. now rewrite app_nil_r.
  - cbn [length map concat Nat.add]. rewrite <- app_assoc.
    rewrite decompress_block, IH by assumption.
    now rewrite <- app_assoc.
Qed.

Lemma block_length (level : Z) (c : list byte) :
  (8 <= length (block level c))%nat.
Proof. unfold block. rewrite !length_app, !u32_le_length. lia. Qed.

Lemma blocks_length (level : Z) (cs : list (list byte)) :
  (length cs <= length (concat (map (block level) cs)))%nat.
Proof.
  induction cs as [|c cs IH]; [reflexivity|].
  cbn [map concat length]. rewrite length_app.
  pose proof (block_length level c). lia.
Qed.

(** A stream of blocks decodes to the concatenation of its chunks. *)
Lemma decompress_file_blocks (level : Z) (cs : list (list byte)) :
  lossless zstd ->
  Forall (fun c => block_fits level c = true) cs ->
  decompress_file (concat (map (block level) cs)) = (concat cs, Returned).
Proof.
  intros L F. unfold decompress_file.
  set (stream := concat (map (block level) cs)).
  pose proof (blocks_length level cs) as B. fold stream in B.
  replace (S (length stream))
    with (length cs + S (length stream - length cs))%nat by lia.
  rewrite <- (app_nil_r stream). unfold stream.
  rewrite decompress_blocks by assumption. reflexivity.
Qed.

(** The counter [decompress_file] starts its loop with is never used up:
    every iteration that goes on has consumed a header. *)
Lemma decompress_loop_fuel (fuel : nat) :
  forall input out : list byte,
    (length input < fuel)%nat ->
    snd (decompress_loop fuel input out) <> OutOfFuel.
Proof.
  induction fuel as [|fuel IH]; intros input out Hf; [lia|].
  cbn [decompress_loop].
  destruct (Py.read 8 input) as [header rest] eqn:R.
  apply read_split in R. destruct R as [-> _].
  destruct header as [|h header]; [discriminate|].
  destruct (Struct.unpack_II (h :: header)) as [e|[n c]]; [discriminate|].
  destruct (Py.read c rest) as [cd rest'] eqn:R'.
  apply read_split in R'. destruct R' as [-> _].
  destruct (decompress cd); [|discriminate].
  destruct (reverse_byte_splitting n l); [discriminate|].
  apply IH. rewrite !length_app in Hf. cbn [length] in Hf. lia.
Qed.

End DecoderFacts.

(** ** The framing backend honours the backend contracts *)

Lemma framed_lossless : lossless Framed.backend.
Proof.
  intros level b. cbn [compress decompress Framed.backend].
  induction b as [|x b IH]; [reflexivity|].
  cbn [Framed.frame Framed.unframe].
  change (Byte.eqb x01 x00) with false. change (Byte.eqb x01 x01) with true.
  cbn iota. now rewrite IH.
Qed.

Lemma framed_rejects_truncation : rejects_truncation Framed.backend.
Proof.
  intros level b k _. cbn [compress decompress Framed.backend].
  revert k. induction b as [|x b IH]; intros k Hk.
  - cbn in Hk. now replace k with 0%nat by lia.
  - destruct k as [|[|k]]; try reflexivity.
    cbn [Framed.frame firstn Framed.unframe].
    change (Byte.eqb x01 x00) with false. change (Byte.eqb x01 x01) with true.
    cbn iota. rewrite IH; [reflexivity|].
    cbn [Framed.frame length] in Hk. lia.
Qed.

(** ** The stream *)

Section StreamFacts.
Context {zstd : Backend}.
Import Compressor.
Local Open Scope Z_scope.

(** A run whose headers could all be packed wrote the blocks of all the
    chunks of the input. *)
Lemma compress_file_complete (input : list byte) (chunk_size level : Z) :
  snd (compress_file input chunk_size level) <> Raised struct_error ->
  fst (compress_file input chunk_size level)
  = concat (map (block level) (chunks_of chunk_size input)) /\
  Forall (fun c => block_fits level c = true) (chunks_of chunk_size input).
Proof.
  intros Hok.
  destruct (compress_file_outcome input chunk_size level) as (-> & Hiff & _).
  destruct (compress_run_blocks input chunk_size level)
    as (done & Hout & Hfits & [[_ ->]|[Hraise _]]).
  - split; assumption.
  - contradiction Hok. now apply Hiff.
Qed.

(** C1.  For every input, every [chunk_size >= 1] and every level, with a
    backend whose decompressor undoes its compressor: when [compress_file]
    has written its file (no header failed to pack), the file is the
    blocks of the successive chunks of the input, those chunks concatenate
    to the input, and [decompress_file] on the file returns normally having
    written exactly the input. *)
Theorem stream_round_trip :
  forall (input : list byte) (chunk_size level : Z),
    1 <= chunk_size ->
    lossless zstd ->
    snd (compress_file input chunk_size level) <> Raised struct_error ->
    fst (compress_file input chunk_size level)
    = concat (map (block level) (chunks_of chunk_size input)) /\
    concat (chunks_of chunk_size input) = input /\
    decompress_file (fst (compress_file input chunk_size level))
    = (input, Returned).
Proof.
  intros input chunk_size level Hcs L Hok.
  destruct (compress_file_complete _ _ _ Hok) as [Hout Hfits].
  assert (Hcat : concat (chunks_of chunk_size input) = input).
  { unfold chunks_of. apply chunks_concat; lia. }
  repeat split; try assumption.
  rewrite Hout, decompress_file_blocks by assumption.
  now rewrite Hcat.
Qed.

End StreamFacts.

Lemma stream_round_trip_witness :
  @Compressor.decompress_file Framed.backend
    (fst (@Compressor.compress_file Framed.backend
            [x00; x01; x02; x03; x04; x05; x06] 3 3))
  = ([x00; x01; x02; x03; x04; x05; x06], Returned).
Proof.
  apply (@stream_round_trip Framed.backend
           [x00; x01; x02; x03; x04; x05; x06] 3 3).
  - lia.
  - exact framed_lossless.
  - vm_compute. discriminate.
Defined.

(** ** The blocks of the output file *)

Lemma Forall_firstn {A : Type} (P : A -> Prop) (j : nat) (l : list A) :
  Forall P l -> Forall P (firstn j l).
Proof.
  intros H. revert j. induction H as [|x l Hx _ IH]; intros [|j];
    cbn [firstn]; auto.
Qed.

Lemma exn_outcome_dec (o : outcome) :
  {o = Raised struct_error} + {o <> Raised struct_error}.
Proof. repeat decide equality. Qed.

Section BlockFacts.
Context {zstd : Backend}.
Import Compressor.
Local Open Scope Z_scope.

(** The output file is the blocks of the first [j] chunks of the input:
    all of them unless a header failed to pack, and then the chunks before
    the one whose lengths do not fit. *)
Lemma compress_file_written (input : list byte) (chunk_size level : Z) :
  exists j : nat,
    let written := firstn j (chunks_of chunk_size input) in
    fst (compress_file input chunk_size level)
    = concat (map (block level) written) /\
    Forall (fun c => block_fits level c = true) written /\
    (snd (compress_file input chunk_size level) <> Raised struct_error ->
     written = chunks_of chunk_size input) /\
    (snd (compress_file input chunk_size level) = Raised struct_error ->
     exists c, In c (chunks_of chunk_size input) /\
               block_fits level c = false).
Proof.
  destruct (compress_file_outcome input chunk_size level) as (-> & Hiff & _).
  destruct (compress_run_blocks input chunk_size level)
    as (done & Hout & Hfits & Hend).
  exists (length done). cbn zeta.
  destruct Hend as [[Ho Hc]|[Ho (c & rest & Hc & Hbad)]].
  - rewrite Hc, firstn_all. repeat split; try assumption.
    intros Hr. apply Hiff in Hr. congruence.
  - rewrite Hc, firstn_exact by reflexivity. repeat split; try assumption.
    + intros Hn. contradiction Hn. now apply Hiff.
    + intros _. exists c. split; [apply in_elt | exact Hbad].
Qed.

Lemma block_fits_bounds (level : Z) (c : list byte) :
  block_fits level c = true <->
  len c < 2 ^ 32 /\ len (compress level (byte_splitting c)) < 2 ^ 32.
Proof.
  unfold block_fits. rewrite andb_true_iff, !fits_u32_spec.
  unfold len. lia.
Qed.

Lemma block_header (level : Z) (c : list byte) :
  block_fits level c = true ->
  Struct.unpack_II (firstn 8 (block level c))
  = inr (len c, len (compress level (byte_splitting c))).
Proof.
  intros F. unfold block_fits in F. apply andb_true_iff in F.
  destruct F as [Fn Fc]. unfold block.
  rewrite app_assoc, firstn_exact by reflexivity.
  now apply unpack_pack.
Qed.

(** C7.  The output of [compress_file] is, block after block and for each
    chunk read, [original_len] as four little-endian bytes, then
    [compressed_len] as four little-endian bytes, then the payload, where
    [original_len] is the length of the chunk before the transform, the
    payload is the backend's output on the planar buffer, and
    [compressed_len] is the length of that payload. *)
Theorem block_layout :
  Struct.u32_le 16909060 = [x04; x03; x02; x01] /\
  forall (input : list byte) (chunk_size level : Z),
  exists j : nat,
    let written := firstn j (chunks_of chunk_size input) in
    fst (compress_file input chunk_size level)
    = concat (map (block level) written) /\
    (snd (compress_file input chunk_size level) <> Raised struct_error ->
     written = chunks_of chunk_size input) /\
    Forall (fun chunk =>
      let payload := compress level (byte_splitting chunk) in
      let original_len := len chunk in
      let compressed_len := len payload in
      block level chunk
      = Struct.u32_le original_len ++ Struct.u32_le compressed_len ++ payload
      /\ length (Struct.u32_le original_len) = 4%nat
      /\ Struct.le_to_Z (Struct.u32_le original_len) = len chunk
      /\ length (Struct.u32_le compressed_len) = 4%nat
      /\ Struct.le_to_Z (Struct.u32_le compressed_len) = len payload)
      written.
Proof.
  split; [reflexivity|].
  intros input chunk_size level.
  destruct (compress_file_written input chunk_size level)
    as (j & Hout & Hfits & Hall & _).
  exists j. cbn zeta in *. repeat split; try assumption.
  eapply Forall_impl; [|exact Hfits].
  intros c F. cbn beta. unfold block_fits in F.
  apply andb_true_iff in F. destruct F as [Fn Fc].
  apply fits_u32_spec in Fn, Fc.
  repeat split; now apply le_to_Z_u32_le.
Qed.

(** C9.  [compress_file] writes no block with [original_len = 0]: every
    block of the output comes from a chunk of at least one byte and (for a
    chunk size that is a size) at most [chunk_size] bytes, and on an empty
    input the first read is empty, no chunk is read and nothing is
    written. *)
Theorem no_empty_block :
  forall (input : list byte) (chunk_size level : Z),
    0 <= chunk_size ->
    (exists j : nat,
        let written := firstn j (chunks_of chunk_size input) in
        fst (compress_file input chunk_size level)
        = concat (map (block level) written) /\
        Forall (fun chunk =>
                  1 <= len chunk <= chunk_size /\
                  Struct.unpack_II (firstn 8 (block level chunk))
                  = inr (len chunk,
                         len (compress level (byte_splitting chunk))))
               written) /\
    chunks_of chunk_size [] = [] /\
    fst (compress_file [] chunk_size level) = [].
Proof.
  intros input chunk_size level Hcs. split; [|split].
  - destruct (compress_file_written input chunk_size level)
      as (j & Hout & Hfits & _).
    exists j. cbn zeta in *. split; [exact Hout|].
    pose proof (chunks_bounds (S (length input)) chunk_size input) as B.
    fold (chunks_of chunk_size input) in B.
    apply (@Forall_firstn _ _ j) in B.
    rewrite Forall_forall in *. intros c Hc.
    destruct (B c Hc) as [B1 B2]. split; [lia|].
    apply block_header. now apply Hfits.
  - unfold chunks_of. cbn [chunks length]. now rewrite read_at_end.
  - unfold compress_file, compress_run. cbn [compress_loop length enc_in].
    now rewrite read_at_end.
Qed.

(** C10.  Both header fields must fit an unsigned 32-bit integer: packing
    a length of [2^32] or more raises [struct.error]; [compress_file]
    raises it exactly when some chunk or its compressed payload is that
    long, and what it has written, then and always, is whole blocks whose
    two header fields read back as the actual lengths. *)
Theorem header_fields_faithful :
  (forall original_len compressed_len : Z,
      2 ^ 32 <= original_len \/ 2 ^ 32 <= compressed_len ->
      Struct.pack_II original_len compressed_len = inl struct_error) /\
  (forall (input : list byte) (chunk_size level : Z),
      (snd (compress_file input chunk_size level) = Raised struct_error <->
       exists chunk,
         In chunk (chunks_of chunk_size input) /\
         (2 ^ 32 <= len chunk \/
          2 ^ 32 <= len (compress level (byte_splitting chunk)))) /\
      exists j : nat,
        let written := firstn j (chunks_of chunk_size input) in
        fst (compress_file input chunk_size level)
        = concat (map (block level) written) /\
        (snd (compress_file input chunk_size level) <> Raised struct_error ->
         written = chunks_of chunk_size input) /\
        Forall (fun chunk =>
                  let payload := compress level (byte_splitting chunk) in
                  len chunk < 2 ^ 32 /\ len payload < 2 ^ 32 /\
                  Struct.unpack_II (firstn 8 (block level chunk))
                  = inr (len chunk, len payload))
               written).
Proof.
  split.
  - intros a b H. apply pack_II_overflow, andb_false_iff.
    unfold Struct.fits_u32. rewrite !andb_false_iff, !Z.ltb_ge. tauto.
  - intros input chunk_size level.
    destruct (compress_file_written input chunk_size level)
      as (j & Hout & Hfits & Hall & Hbad).
    cbn zeta in *. split.
    + split.
      * intros Hr. destruct (Hbad Hr) as (c & Hin & F).
        exists c. split; [exact Hin|].
        destruct (Z.lt_ge_cases (len c) (2 ^ 32)) as [H1|H1]; [|now left].
        destruct (Z.lt_ge_cases
                    (len (compress level (byte_splitting c))) (2 ^ 32))
          as [H2|H2]; [|now right].
        assert (T : block_fits level c = true)
          by now apply block_fits_bounds.
        congruence.
      * intros (c & Hin & Hbig).
        destruct (exn_outcome_dec
                    (snd (compress_file input chunk_size level)))
          as [Hr|Hn]; [exact Hr|].
        exfalso. rewrite (Hall Hn) in Hfits.
        rewrite Forall_forall in Hfits. specialize (Hfits c Hin).
        apply block_fits_bounds in Hfits. lia.
    + exists j. repeat split; try assumption.
      eapply Forall_impl; [|exact Hfits].
      intros c F. cbn beta zeta.
      pose proof (proj1 (block_fits_bounds level c) F) as [B1 B2].
      repeat split; try assumption. now apply block_header.
Qed.

End BlockFacts.

(** ** Streams that were cut short *)

Section TruncationFacts.
Context {zstd : Backend}.
Import Compressor.
Local Open Scope Z_scope.

(** Decoding some blocks followed by bytes on which the loop raises ends
    with an exception, whatever the backend makes of the blocks. *)
Lemma decode_blocks_then_fail (level : Z) (cs : list (list byte))
  (t : list byte) :
  Forall (fun c => block_fits level c = true) cs ->
  (forall fuel out, exists e,
      snd (decompress_loop (S fuel) t out) = Raised e) ->
  forall fuel out, exists e,
    snd (decompress_loop (length cs + S fuel)
           (concat (map (block level) cs) ++ t) out) = Raised e.
Proof.
  intros F Ht. induction F as [|c cs Fc _ IH]; intros fuel out.
  - apply Ht.
  - cbn [length map concat Nat.add]. rewrite <- app_assoc.
    rewrite decompress_block_step by assumption.
    destruct (decompress _) as [td|]; [|now exists ZstdError].
    destruct (reverse_byte_splitting _ _) as [e|r]; [now exists e|].
    apply IH.
Qed.

(** The last block of a stream, cut by one to seven bytes: either the
    header is incomplete, or the payload is and the backend rejects it. *)
Lemma truncated_block_fails (level : Z) (c : list byte) (k : nat) :
  rejects_truncation zstd ->
  block_fits level c = true -> c <> [] -> (1 <= k <= 7)%nat ->
  forall fuel out, exists e,
    snd (decompress_loop (S fuel)
           (firstn (length (block level c) - k) (block level c)) out)
    = Raised e.
Proof.
  intros RT F Hc Hk fuel out.
  pose proof F as F'. unfold block_fits in F'.
  apply andb_true_iff in F'. destruct F' as [Fn Fp].
  unfold block.
  set (P := compress level (byte_splitting c)) in *.
  rewrite !length_app, !u32_le_length.
  destruct (Nat.le_gt_cases k (length P)) as [Hle|Hgt].
  - replace (4 + (4 + length P) - k)%nat
      with (4 + (4 + (length P - k)))%nat by lia.
    rewrite firstn_app, u32_le_length.
    rewrite (firstn_all2 (n := (4 + (4 + (length P - k)))%nat)
               (Struct.u32_le (len c)))
      by (rewrite u32_le_length; lia).
    replace (4 + (4 + (length P - k)) - 4)%nat
      with (4 + (length P - k))%nat by lia.
    rewrite firstn_app, u32_le_length.
    rewrite (firstn_all2 (n := (4 + (length P - k))%nat)
               (Struct.u32_le (len P)))
      by (rewrite u32_le_length; lia).
    replace (4 + (length P - k) - 4)%nat with (length P - k)%nat by lia.
    rewrite decompress_loop_header by assumption.
    rewrite firstn_firstn.
    replace (Nat.min (Z.to_nat (len P)) (length P - k))
      with (length P - k)%nat by (unfold len; lia).
    unfold P. rewrite RT; [now exists ZstdError | | fold P; lia].
    intros E. apply (f_equal (@length byte)) in E.
    rewrite byte_splitting_length in E.
    destruct c; [now contradiction Hc | discriminate].
  - exists struct_error. rewrite app_assoc.
    rewrite decompress_short_header; [reflexivity|].
    rewrite length_firstn, !length_app, !u32_le_length. lia.
Qed.

Lemma chunks_nonempty (chunk_size : Z) (input : list byte) :
  Forall (fun c => c <> []) (chunks_of chunk_size input).
Proof.
  eapply Forall_impl; [|apply chunks_bounds].
  intros c [H _] ->. cbn in H. lia.
Qed.

(** C6.  Where a block header is expected, an empty read ends the decoding
    normally, and a read of one to seven bytes raises ([struct.error] from
    [struct.unpack]); a stream written by [compress_file] and then cut by
    one to seven trailing bytes therefore never decodes silently: the
    decoder raises, on the incomplete header or, when the cut left the
    header whole, because the backend rejects the shortened payload. *)
Theorem header_truncation_detected :
  (forall (fuel : nat) (out : list byte),
      decompress_loop (S fuel) [] out = (out, Returned)) /\
  decompress_file [] = ([], Returned) /\
  (forall (fuel : nat) (t out : list byte),
      (1 <= length t <= 7)%nat ->
      decompress_loop (S fuel) t out = (out, Raised struct_error)) /\
  (rejects_truncation zstd ->
   forall (input : list byte) (chunk_size level : Z) (k : nat),
     let stream := fst (compress_file input chunk_size level) in
     snd (compress_file input chunk_size level) <> Raised struct_error ->
     (1 <= k <= 7)%nat -> (k <= length stream)%nat ->
     exists e,
       snd (decompress_file (firstn (length stream - k) stream)) = Raised e).
Proof.
  split; [|split; [|split]].
  - intros. apply decompress_at_end.
  - reflexivity.
  - intros. now apply decompress_short_header.
  - intros RT input chunk_size level k stream Hok Hk Hlen.
    destruct (compress_file_complete _ _ _ Hok) as [Hout Hfits].
    pose proof (chunks_nonempty chunk_size input) as Hne.
    subst stream. rewrite Hout in *. clear Hout Hok.
    assert (Hnn : chunks_of chunk_size input <> [])
      by (intros E; rewrite E in Hlen; cbn in Hlen; lia).
    destruct (exists_last Hnn) as (l & c0 & E). rewrite E in *. clear E Hnn.
    apply Forall_app in Hfits, Hne.
    destruct Hfits as [Fcs Fc], Hne as [_ Nc].
    apply Forall_inv in Fc, Nc.
    rewrite map_app, concat_app. cbn [map concat]. rewrite app_nil_r.
    set (S' := concat (map (block level) l)).
    pose proof (block_length level c0) as B8.
    rewrite length_app, firstn_app.
    rewrite (firstn_all2 (n := (length S' + length (block level c0) - k)%nat)
               S') by lia.
    replace (length S' + length (block level c0) - k - length S')%nat
      with (length (block level c0) - k)%nat by lia.
    unfold decompress_file.
    set (T := firstn (length (block level c0) - k) (block level c0)).
    pose proof (blocks_length level l) as BL. fold S' in BL.
    replace (S (length (S' ++ T)))
      with (length l + S (length (S' ++ T) - length l))%nat
      by (rewrite length_app; lia).
    apply decode_blocks_then_fail; [assumption|].
    intros fuel out. now apply truncated_block_fails.
Qed.

End TruncationFacts.

Lemma header_truncation_detected_witness :
  exists e,
    snd (@Compressor.decompress_file Framed.backend
           (firstn 39
              (fst (@Compressor.compress_file Framed.backend
                      [x00; x01; x02; x03; x04; x05; x06] 3 3))))
    = Raised e.
Proof.
  apply (proj2 (proj2 (proj2 (@header_truncation_detected Framed.backend)))
           framed_rejects_truncation
           [x00; x01; x02; x03; x04; x05; x06] 3%Z 3%Z 2%nat).
  - vm_compute. discriminate.
  - lia.
  - vm_compute. lia.
Defined.

(** ** What the decoder does not check *)

Section UncheckedFacts.
Context {zstd : Backend}.
Import Compressor.
Local Open Scope Z_scope.

Lemma assign_stride2_length {A : Type} (start : nat) (arr src r : list A) :
  Np.assign_stride2 start arr src = inr r -> length r = length arr.
Proof.
  unfold Np.assign_stride2.
  destruct (Np.broadcast _ src) as [vals|]; [|discriminate].
  intros E. injection E as <-.
  rewrite length_app, scatter_length, length_firstn, length_skipn. lia.
Qed.

Lemma assign_stride2_raises {A : Type} (start : nat) (arr src : list A)
  (e : exn) :
  Np.assign_stride2 start arr src = inl e -> e = ValueError.
Proof.
  unfold Np.assign_stride2.
  destruct (Np.broadcast _ src); [discriminate|]. congruence.
Qed.

Lemma assign_stride2_fits {A : Type} (start : nat) (arr src : list A) :
  length src = length (Py.stride2 start arr) ->
  exists r, Np.assign_stride2 start arr src = inr r.
Proof.
  intros H. unfold Np.assign_stride2.
  rewrite broadcast_same by assumption. eauto.
Qed.

Lemma slice_last_length {A : Type} (l : list A) :
  length (Py.slice l (Some (-1)) None) = Nat.min 1 (length l).
Proof.
  induction l as [|x l _] using rev_ind; [reflexivity|].
  rewrite slice_last, length_app. cbn [length]. lia.
Qed.

Lemma div2_double_pred (k : nat) : Nat.div2 (S (2 * k - 1)) = k.
Proof.
  destruct k as [|k]; [reflexivity|].
  replace (S (2 * S k - 1)) with (2 * S k)%nat by lia.
  apply Nat.div2_double.
Qed.

Lemma empty_length (n : Z) : length (Np.empty n) = Z.to_nat n.
Proof. apply repeat_length. Qed.

Lemma reverse_byte_splitting_raises (n : Z) (td : list byte) (e : exn) :
  reverse_byte_splitting n td = inl e -> e = ValueError.
Proof.
  unfold reverse_byte_splitting.
  destruct (Np.assign_stride2 0 _ _) as [e0|r1] eqn:A0.
  - intros E. injection E as <-. eapply assign_stride2_raises; eassumption.
  - destruct (Np.assign_stride2 1 _ _) as [e1|r2] eqn:A1; [|discriminate].
    intros E. injection E as <-. eapply assign_stride2_raises; eassumption.
Qed.

(** A decompressed payload of at least [original_len] bytes always passes
    the inverse transform, which then yields [original_len] bytes. *)
Lemma reverse_byte_splitting_long (n : Z) (td : list byte) :
  0 <= n <= len td ->
  exists restored,
    reverse_byte_splitting n td = inr restored /\ len restored = n.
Proof.
  intros Hn. unfold reverse_byte_splitting, len in *.
  set (k := Z.to_nat (n / 2)).
  assert (Hk : n / 2 = Z.of_nat k) by (subst k; zlia).
  assert (H2k : (2 * k <= length td)%nat) by zlia.
  rewrite Hk, slice_prefix, slice_range by lia.
  rewrite Nat2Z.id.
  replace (Z.to_nat (Z.of_nat k * 2) - k)%nat with k by lia.
  destruct (@assign_stride2_fits _ 0 (Np.empty (Z.of_nat k * 2))
              (firstn k td)) as [r1 A0].
  { unfold Py.stride2. change (skipn 0 ?l) with l.
    rewrite every_other_length, empty_length, length_firstn.
    replace (Z.to_nat (Z.of_nat k * 2)) with (2 * k)%nat by lia.
    rewrite Nat.div2_succ_double. lia. }
  rewrite A0. pose proof (assign_stride2_length _ _ _ A0) as L1.
  rewrite empty_length in L1.
  destruct (@assign_stride2_fits _ 1 r1 (firstn k (skipn k td)))
    as [r2 A1].
  { unfold Py.stride2.
    rewrite every_other_length, length_skipn, length_firstn, length_skipn, L1.
    replace (Z.to_nat (Z.of_nat k * 2) - 1)%nat with (2 * k - 1)%nat by lia.
    rewrite div2_double_pred. lia. }
  rewrite A1. pose proof (assign_stride2_length _ _ _ A1) as L2.
  eexists. split; [reflexivity|].
  rewrite length_app, L2, L1.
  destruct (Z.eqb_spec (n mod 2) 0) as [E|E]; cbn [negb length].
  - zlia.
  - rewrite slice_last_length. zlia.
Qed.

(** When the inverse transform passes, it yields [original_len] bytes, but
    for [original_len = 1] with an empty decompressed payload. *)
Lemma reverse_byte_splitting_yield (n : Z) (td restored : list byte) :
  0 <= n ->
  reverse_byte_splitting n td = inr restored ->
  len restored = n \/ (n = 1 /\ td = [] /\ restored = []).
Proof.
  intros Hn. unfold reverse_byte_splitting, len.
  set (k := Z.to_nat (n / 2)).
  assert (Hk : n / 2 = Z.of_nat k) by (subst k; zlia).
  rewrite Hk.
  destruct (Np.assign_stride2 0 _ _) as [e0|r1] eqn:A0; [discriminate|].
  destruct (Np.assign_stride2 1 _ _) as [e1|r2] eqn:A1; [discriminate|].
  intros E. injection E as <-.
  pose proof (assign_stride2_length _ _ _ A0) as L1.
  pose proof (assign_stride2_length _ _ _ A1) as L2.
  rewrite empty_length in L1. rewrite length_app, L2, L1.
  destruct (Z.eqb_spec (n mod 2) 0) as [E|E]; cbn [negb length].
  - left. zlia.
  - rewrite slice_last_length. destruct td as [|x td]; [|left; cbn; zlia].
    right. cbn [length].
    unfold Np.assign_stride2, Py.stride2 in A0.
    change (skipn 0 ?l) with l in A0.
    rewrite every_other_length, empty_length in A0.
    replace (Z.to_nat (Z.of_nat k * 2)) with (2 * k)%nat in A0 by lia.
    rewrite Nat.div2_succ_double in A0.
    destruct k as [|k]; [|discriminate A0].
    assert (L0 : length r2 = 0%nat) by (rewrite L2, L1; reflexivity).
    destruct r2; [|discriminate L0].
    repeat split. zlia.
Qed.

(** C4, as the code has it.  The decoder has no truncation check: the
    payload of a block is the next [compressed_len] bytes, or whatever is
    left when fewer remain.  A short payload is handed to the backend as it
    is, so the block is decoded exactly as if its header had declared the
    number of bytes present: it fails with the backend's [ZstdError] if the
    backend rejects those bytes, with numpy's [ValueError] if the inverse
    transform cannot fill its planes, and is accepted otherwise. *)
Theorem short_payload_reaches_backend :
  forall (fuel : nat) (original_len compressed_len : Z)
         (f_in out : list byte),
    Struct.fits_u32 original_len = true ->
    Struct.fits_u32 compressed_len = true ->
    len f_in < compressed_len ->
    let declared :=
      Struct.u32_le original_len ++ Struct.u32_le compressed_len ++ f_in in
    let present :=
      Struct.u32_le original_len ++ Struct.u32_le (len f_in) ++ f_in in
    decompress_loop (S (S fuel)) declared out
    = decompress_loop (S (S fuel)) present out /\
    decompress_loop (S (S fuel)) declared out
    = match decompress f_in with
      | None => (out, Raised ZstdError)
      | Some transformed_data =>
          match reverse_byte_splitting original_len transformed_data with
          | inl _ => (out, Raised ValueError)
          | inr restored => (out ++ restored, Returned)
          end
      end.
Proof.
  intros fuel n c f_in out Hn Hc Hshort declared present.
  assert (Hp : Struct.fits_u32 (len f_in) = true).
  { apply fits_u32_spec. apply fits_u32_spec in Hc. unfold len in *. lia. }
  subst declared present.
  rewrite !decompress_loop_header by assumption.
  unfold len in *. rewrite Nat2Z.id.
  rewrite !firstn_all2, !skipn_all2 by lia.
  split; [reflexivity|].
  destruct (decompress f_in) as [td|]; [|reflexivity].
  destruct (reverse_byte_splitting n td) as [e|r] eqn:R; [|reflexivity].
  now rewrite (reverse_byte_splitting_raises _ _ R).
Qed.

(** C5, as the code has it.  The decoder compares no length with
    [original_len].  A payload that decompresses to [original_len] bytes or
    more is always accepted, the bytes beyond the two planes being ignored
    (but for the last one, taken as trailing byte when [original_len] is
    odd), and [original_len] bytes are written.  The inverse transform can
    only fail with numpy's [ValueError], on a decompressed payload shorter
    than [original_len]; and when it passes, the bytes written number
    [original_len], except that for [original_len = 1] an empty
    decompressed payload is accepted and nothing is written. *)
Theorem length_not_checked :
  forall (original_len : Z) (transformed_data : list byte),
    0 <= original_len ->
    (original_len <= len transformed_data ->
     exists restored,
       reverse_byte_splitting original_len transformed_data = inr restored /\
       len restored = original_len) /\
    (forall e,
        reverse_byte_splitting original_len transformed_data = inl e ->
        e = ValueError /\ len transformed_data < original_len) /\
    (forall restored,
        reverse_byte_splitting original_len transformed_data = inr restored ->
        len restored = original_len \/
        (original_len = 1 /\ transformed_data = [] /\ restored = [])).
Proof.
  intros n td Hn. split; [|split].
  - intros H. apply reverse_byte_splitting_long. lia.
  - intros e He. split.
    + eapply reverse_byte_splitting_raises; eassumption.
    + destruct (Z.lt_ge_cases (len td) n) as [H|H]; [exact H|].
      destruct (@reverse_byte_splitting_long n td) as (r & Hr & _); [lia|].
      congruence.
  - intros restored. now apply reverse_byte_splitting_yield.
Qed.

End UncheckedFacts.

Lemma short_payload_reaches_backend_witness :
  @Compressor.decompress_loop Framed.backend 2
    (Struct.u32_le 2 ++ Struct.u32_le 200 ++ Framed.frame [x0a; x0b]) []
  = @Compressor.decompress_loop Framed.backend 2
      (Struct.u32_le 2 ++ Struct.u32_le (len (Framed.frame [x0a; x0b])) ++
       Framed.frame [x0a; x0b]) [].
Proof.
  apply (@short_payload_reaches_backend Framed.backend 0 2%Z 200%Z
           (Framed.frame [x0a; x0b]) []); reflexivity.
Defined.

(** A header that declares 200 payload bytes, followed by the 5 bytes of a
    complete frame and the end of the file: the block is accepted. *)
Lemma short_payload_accepted :
  (len (Framed.frame [x0a; x0b]) < 200)%Z /\
  @Compressor.decompress_file Framed.backend
    (Struct.u32_le 2 ++ Struct.u32_le 200 ++ Framed.frame [x0a; x0b])
  = ([x0a; x0b], Returned).
Proof. split; reflexivity. Qed.

Lemma length_not_checked_witness :
  exists restored,
    Compressor.reverse_byte_splitting 2 [x0a; x0b; x0c] = inr restored /\
    len restored = 2%Z.
Proof.
  apply (proj1 (@length_not_checked 2%Z [x0a; x0b; x0c] ltac:(lia))).
  vm_compute. discriminate.
Defined.

(** A block whose header says [original_len = 2] and whose payload
    decompresses to 3 bytes is accepted and 2 bytes are written; a block
    whose header says [original_len = 1] and whose payload decompresses to
    nothing is accepted and nothing is written. *)
Lemma length_mismatch_accepted :
  @Compressor.decompress_file Framed.backend
    (Struct.u32_le 2 ++ Struct.u32_le 7 ++ Framed.frame [x0a; x0b; x0c])
  = ([x0a; x0b], Returned) /\
  @Compressor.decompress_file Framed.backend
    (Struct.u32_le 1 ++ Struct.u32_le 1 ++ Framed.frame [])
  = ([], Returned).
Proof. split; reflexivity. Qed.

Lemma no_empty_block_witness :
  @Compressor.chunks_of 3 [] = [] /\
  fst (@Compressor.compress_file Framed.backend [] 3 3) = [].
Proof.
  apply (@no_empty_block Framed.backend [x00; x01; x02; x03; x04; x05; x06]
           3%Z 3%Z).
  lia.
Defined.

Lemma header_fields_faithful_witness :
  Struct.pack_II 1 (2 ^ 32) = inl struct_error.
Proof.
  apply (proj1 (@header_fields_faithful Framed.backend) 1%Z (2 ^ 32)%Z).
  right. apply Z.le_refl.
Defined.

(** ** Termination and the summary line *)

Section RunFacts.
Context {zstd : Backend}.
Import Compressor.
Local Open Scope Z_scope.

(** [compress_file] ends in one of three ways and never for lack of
    fuel. *)
Lemma compress_file_terminates (input : list byte) (chunk_size level : Z) :
  snd (compress_file input chunk_size level) = Returned \/
  snd (compress_file input chunk_size level) = Raised ZeroDivisionError \/
  snd (compress_file input chunk_size level) = Raised struct_error.
Proof.
  destruct (compress_file_outcome input chunk_size level) as (_ & _ & H).
  destruct (exn_outcome_dec (snd (compress_file input chunk_size level)))
    as [E|E]; [now right; right|].
  destruct (H E); auto.
Qed.

Lemma decompress_file_terminates (input : list byte) :
  snd (decompress_file input) <> OutOfFuel.
Proof. apply decompress_loop_fuel. lia. Qed.

(** On an empty input the output file is created empty and the summary
    then divides by [total_compressed = 0]. *)
Lemma compress_file_empty_input (chunk_size level : Z) :
  compress_file [] chunk_size level = ([], Raised ZeroDivisionError).
Proof.
  unfold compress_file, compress_run. cbn [compress_loop length enc_in].
  now rewrite read_at_end.
Qed.

End RunFacts.

(** * Part III: further facts about the two programs *)

(** ** The counters and the end of [compress_file] *)



Section CounterFacts.
Context {zstd : Backend}.
Import Compressor.
Local Open Scope Z_scope.








End CounterFacts.

(** ** How the input is cut into chunks *)

Section ChunkFacts.
Context {zstd : Backend}.
Import Compressor.
Local Open Scope Z_scope.

Lemma ceil_div_step (n c : Z) :
  1 <= c -> 1 <= n ->
  (n + c - 1) / c = 1 + (Z.max 0 (n - c) + c - 1) / c.
Proof.
  intros Hc Hn. destruct (Z.le_gt_cases n c) as [H|H].
  - rewrite Z.max_l by lia.
    rewrite (Z.div_small (0 + c - 1) c) by lia.
    symmetry. apply Z.div_unique with (r := n - 1); lia.
  - rewrite Z.max_r by lia.
    replace (n + c - 1) with ((n - c + c - 1) + 1 * c) by lia.
    rewrite Z.div_add by lia. lia.
Qed.

Lemma chunks_count (fuel : nat) (chunk_size : Z) :
  1 <= chunk_size ->
  forall l : list byte,
    (length l < fuel)%nat ->
    Z.of_nat (length (chunks fuel chunk_size l))
    = (len l + chunk_size - 1) / chunk_size.
Proof.
  intros Hcs. induction fuel as [|fuel IH]; intros l Hf; [lia|].
  cbn [chunks]. rewrite read_firstn_skipn by lia.
  destruct l as [|x l].
  - rewrite firstn_nil. cbn [length]. unfold len. cbn [length].
    symmetry. apply Z.div_small. lia.
  - destruct (Z.to_nat chunk_size) as [|c] eqn:C; [lia|].
    cbn [firstn length]. rewrite Nat2Z.inj_succ, IH.
    2:{ rewrite length_skipn. cbn [length] in *. lia. }
    rewrite (ceil_div_step (n := len (x :: l))) by (unfold len; cbn [length]; lia).
    unfold len. rewrite length_skipn. cbn [length].
    replace (Z.max 0 (Z.of_nat (S (length l)) - chunk_size))
      with (Z.of_nat (S (length l) - S c)) by lia.
    lia.
Qed.

Lemma chunks_at_end (fuel : nat) (chunk_size : Z) :
  chunks fuel chunk_size [] = [].
Proof. destruct fuel; [reflexivity|]. cbn [chunks]. now rewrite read_at_end. Qed.

Lemma chunks_full (fuel : nat) (chunk_size : Z) :
  0 <= chunk_size ->
  forall l : list byte,
    Forall (fun c => len c = chunk_size)
           (removelast (chunks fuel chunk_size l)).
Proof.
  intros Hcs. induction fuel as [|fuel IH]; intros l; [constructor|].
  cbn [chunks]. rewrite read_firstn_skipn by lia.
  destruct (firstn (Z.to_nat chunk_size) l) as [|x chunk] eqn:F;
    [constructor|].
  destruct (chunks fuel chunk_size (skipn (Z.to_nat chunk_size) l))
    as [|c' cs'] eqn:R; [constructor|].
  change (removelast (?a :: c' :: cs')) with (a :: removelast (c' :: cs')).
  constructor.
  - rewrite <- F. unfold len. rewrite length_firstn.
    destruct (Nat.le_gt_cases (length l) (Z.to_nat chunk_size)) as [H|H];
      [|lia].
    rewrite (skipn_all2 l H), chunks_at_end in R. discriminate.
  - rewrite <- R. apply IH.
Qed.

(** X4.  For [chunk_size >= 1] the encoder cuts an input of [n] bytes into
    [ceil(n / chunk_size)] chunks, every one of exactly [chunk_size] bytes
    but possibly the last, and (unless a header fails to pack) writes one
    block for each. *)
Theorem chunk_layout :
  forall (input : list byte) (chunk_size level : Z),
    1 <= chunk_size ->
    len (chunks_of chunk_size input)
    = (len input + chunk_size - 1) / chunk_size /\
    Forall (fun c => len c = chunk_size)
           (removelast (chunks_of chunk_size input)) /\
    (snd (compress_file input chunk_size level) <> Raised struct_error ->
     fst (compress_file input chunk_size level)
     = concat (map (block level) (chunks_of chunk_size input))).
Proof.
  intros input chunk_size level Hcs. split; [|split].
  - unfold chunks_of, len at 1. apply chunks_count; lia.
  - apply chunks_full. lia.
  - intros Hok. now apply compress_file_complete.
Qed.


End ChunkFacts.

Lemma chunk_layout_witness :
  len (Compressor.chunks_of 3 [x00; x01; x02; x03; x04; x05; x06])
  = ((7 + 3 - 1) / 3)%Z.
Proof.
  apply (@chunk_layout Framed.backend [x00; x01; x02; x03; x04; x05; x06]
           3%Z 3%Z).
  lia.
Defined.



(** ** Decoding what follows a stream *)

Section ComposeFacts.
Context {zstd : Backend}.
Import Compressor.
Local Open Scope Z_scope.




(** The round trip, for every chunk size that reads anything. *)
Lemma decompress_compress_file (input : list byte) (chunk_size level : Z) :
  lossless zstd -> chunk_size <> 0 ->
  snd (compress_file input chunk_size level) <> Raised struct_error ->
  decompress_file (fst (compress_file input chunk_size level))
  = (input, Returned).
Proof.
  intros L Hcs Hok.
  destruct (compress_file_complete _ _ _ Hok) as [-> Hfits].
  rewrite decompress_file_blocks by assumption.
  unfold chunks_of. now rewrite chunks_concat by (assumption || lia).
Qed.



Lemma unpack_II_raises (h : list byte) (e : exn) :
  Struct.unpack_II h = inl e -> e = struct_error.
Proof.
  intros E.
  destruct (Nat.eq_dec (length h) 8) as [H|H].
  - do 9 (destruct h as [|? h]; try discriminate H). discriminate E.
  - rewrite unpack_short in E by assumption. congruence.
Qed.

Lemma decompress_loop_outcomes (fuel : nat) :
  forall input out : list byte,
    (length input < fuel)%nat ->
    let o := snd (decompress_loop fuel input out) in
    o = Returned \/ o = Raised struct_error \/
    o = Raised ZstdError \/ o = Raised ValueError.
Proof.
  induction fuel as [|fuel IH]; intros input out Hf; [lia|].
  cbn [decompress_loop].
  destruct (Py.read 8 input) as [header rest] eqn:R.
  apply read_split in R. destruct R as [-> _].
  destruct header as [|h header]; [now left|].
  destruct (Struct.unpack_II (h :: header)) as [e|[n c]] eqn:U.
  { apply unpack_II_raises in U. subst e. cbn. auto. }
  destruct (Py.read c rest) as [cd rest'] eqn:R'.
  apply read_split in R'. destruct R' as [-> _].
  destruct (decompress cd) as [td|]; [|cbn; auto].
  destruct (reverse_byte_splitting n td) as [e|r] eqn:V.
  { apply reverse_byte_splitting_raises in V. subst e. cbn. auto. }
  apply IH. rewrite !length_app in Hf. cbn [length] in Hf. lia.
Qed.

(** X8.  [decompress_file] stops on every file, and stops in one of four
    ways only: it returns, or [struct.unpack] raises on an incomplete
    header, or the backend raises on a payload, or numpy raises when the
    decompressed payload cannot fill the planes. *)
Theorem decompress_file_outcomes :
  forall input : list byte,
    snd (decompress_file input) = Returned \/
    snd (decompress_file input) = Raised struct_error \/
    snd (decompress_file input) = Raised ZstdError \/
    snd (decompress_file input) = Raised ValueError.
Proof.
  intros input. unfold decompress_file.
  apply decompress_loop_outcomes. lia.
Qed.

End ComposeFacts.



(** ** Planes written into an array *)

Section WeaveFacts.
Context {A : Type}.

Lemma weave_cons2 (a b v w : A) (arr ve vo : list A) :
  firstn 1 (Np.scatter (a :: b :: arr) (v :: ve)) ++
    Np.scatter (skipn 1 (Np.scatter (a :: b :: arr) (v :: ve))) (w :: vo)
  = v :: w :: (firstn 1 (Np.scatter arr ve) ++
               Np.scatter (skipn 1 (Np.scatter arr ve)) vo).
Proof.
  cbn [Np.scatter firstn skipn app]. do 2 f_equal.
  destruct (Np.scatter arr ve); reflexivity.
Qed.

(** Two planes of equal length written into an array of twice that length
    come out again as its even and odd planes. *)
Lemma weave_planes (arr : list A) :
  forall ve vo : list A,
    length ve = length vo ->
    length arr = (2 * length ve)%nat ->
    let w := firstn 1 (Np.scatter arr ve) ++
             Np.scatter (skipn 1 (Np.scatter arr ve)) vo in
    Py.every_other w = ve /\ Py.every_other (skipn 1 w) = vo /\
    length w = length arr.
Proof.
  induction arr as [| a | a b arr IH] using list_pair_ind;
    intros ve vo Hvo Harr.
  - destruct ve; [|discriminate]. destruct vo; [|discriminate].
    cbn. auto.
  - cbn [length] in Harr. lia.
  - destruct ve as [|v ve]; [discriminate|].
    destruct vo as [|w vo]; [discriminate|].
    cbn [length] in Hvo, Harr.
    destruct (IH ve vo) as (E1 & E2 & E3); [lia | lia|].
    cbn zeta in *. rewrite weave_cons2.
    set (w' := firstn 1 (Np.scatter arr ve) ++
               Np.scatter (skipn 1 (Np.scatter arr ve)) vo) in *.
    cbn [Py.every_other skipn length]. rewrite E1, E3.
    repeat split.
    f_equal. rewrite <- E2. destruct w'; reflexivity.
Qed.

Lemma broadcast_single (slots : nat) (x : A) :
  Np.broadcast slots [x] = Some (repeat x slots).
Proof.
  unfold Np.broadcast. cbn [length].
  destruct (Nat.eqb_spec 1 slots) as [<-|_]; reflexivity.
Qed.

Lemma broadcast_mismatch (slots : nat) (src : list A) :
  length src <> slots -> length src <> 1%nat ->
  Np.broadcast slots src = None.
Proof.
  intros H1 H2. unfold Np.broadcast.
  destruct (Nat.eqb_spec (length src) slots) as [?|_]; [contradiction|].
  destruct src as [|x [|y src]]; try reflexivity. now contradiction H2.
Qed.

End WeaveFacts.

(** ** More about the two transforms *)

Section TransformFacts.
Import Compressor.
Local Open Scope Z_scope.

(** X9.  numpy's broadcasting lets a short payload through: when the
    decompressed payload holds the even plane of an even [original_len]
    and one single byte more, that byte is repeated over the whole odd
    plane and the block is accepted, although (from [original_len = 4] on)
    the payload is shorter than [original_len]. *)
Theorem short_payload_broadcast :
  forall (e : list byte) (x : byte),
    e <> [] ->
    let k := length e in
    exists restored,
      reverse_byte_splitting (2 * Z.of_nat k) (e ++ [x]) = inr restored /\
      Py.every_other restored = e /\
      Py.every_other (skipn 1 restored) = repeat x k /\
      len restored = 2 * Z.of_nat k /\
      ((2 <= k)%nat -> len (e ++ [x]) < 2 * Z.of_nat k).
Proof.
  intros e x He k. unfold reverse_byte_splitting.
  assert (Hk : (1 <= k)%nat).
  { subst k. destruct e; [now contradiction He | cbn; lia]. }
  replace (2 * Z.of_nat k / 2) with (Z.of_nat k) by zlia.
  replace (2 * Z.of_nat k mod 2 =? 0) with true
    by (symmetry; apply Z.eqb_eq; zlia).
  cbn [negb]. rewrite slice_prefix, slice_range by lia.
  rewrite Nat2Z.id.
  replace (Z.to_nat (Z.of_nat k * 2) - k)%nat with k by lia.
  rewrite (firstn_exact e [x] (eq_refl : length e = k)).
  rewrite (skipn_exact e [x] (eq_refl : length e = k)).
  replace (firstn k [x]) with [x]
    by (symmetry; apply firstn_all2; cbn [length]; lia).
  unfold Np.assign_stride2, Py.stride2.
  change (skipn 0 ?l) with l. change (firstn 0 ?l) with (@nil byte).
  rewrite every_other_length, empty_length.
  replace (Z.to_nat (Z.of_nat k * 2)) with (2 * k)%nat by lia.
  rewrite Nat.div2_succ_double, broadcast_same by reflexivity.
  rewrite app_nil_l, broadcast_single.
  rewrite every_other_length, length_skipn, scatter_length.
  unfold Np.empty. rewrite repeat_length.
  replace (Z.to_nat (Z.of_nat k * 2)) with (2 * k)%nat by lia.
  rewrite div2_double_pred.
  destruct (@weave_planes byte (repeat x00 (2 * k)) e (repeat x k))
    as (E1 & E2 & E3).
  { now rewrite repeat_length. }
  { now rewrite repeat_length. }
  cbn zeta in *. eexists. split; [reflexivity|].
  rewrite app_nil_r. split; [exact E1|]. split; [exact E2|]. split.
  - unfold len. rewrite E3, repeat_length. lia.
  - intros H2. unfold len. rewrite length_app. cbn [length]. lia.
Qed.

Lemma unsplit_bytes_even (d : list byte) :
  Nat.even (length d) = true ->
  exists r,
    Benchmark.unsplit_bytes d = inr r /\ length r = length d /\
    Py.every_other r = firstn (Nat.div2 (length d)) d /\
    Py.every_other (skipn 1 r) = skipn (Nat.div2 (length d)) d.
Proof.
  intros Hd. unfold Benchmark.unsplit_bytes.
  destruct (div2_even_half _ Hd) as [_ H2].
  set (q := Nat.div2 (length d)) in *.
  assert (Hq : len d / 2 = Z.of_nat q) by (unfold len; zlia).
  rewrite Hq, slice_prefix, slice_suffix, Nat2Z.id by lia.
  assert (L1 : length (firstn q d) = q) by (rewrite length_firstn; lia).
  assert (L2 : length (skipn q d) = q) by (rewrite length_skipn; lia).
  unfold Np.assign_stride2, Py.stride2.
  change (skipn 0 ?l) with l. change (firstn 0 ?l) with (@nil byte).
  rewrite every_other_length, empty_length.
  replace (Z.to_nat (len d)) with (2 * q)%nat by (unfold len; lia).
  rewrite Nat.div2_succ_double, broadcast_same by assumption.
  rewrite app_nil_l, broadcast_same.
  2:{ rewrite L2, every_other_length, length_skipn, scatter_length.
      unfold Np.empty. rewrite repeat_length.
      replace (Z.to_nat (len d)) with (2 * q)%nat by (unfold len; lia).
      now rewrite div2_double_pred. }
  destruct (@weave_planes byte (Np.empty (len d)) (firstn q d) (skipn q d))
    as (E1 & E2 & E3).
  { now rewrite L1, L2. }
  { rewrite empty_length, L1. unfold len. lia. }
  cbn zeta in *. eexists. split; [reflexivity|].
  rewrite E3, empty_length. unfold len. rewrite Nat2Z.id. auto.
Qed.

Lemma unsplit_bytes_odd (d : list byte) :
  Nat.even (length d) = false ->
  Benchmark.unsplit_bytes d = inl ValueError.
Proof.
  intros Hd. destruct (odd_length_last _ Hd) as (p & x & -> & Hp).
  destruct (div2_even_half _ Hp) as [_ H2].
  set (q := Nat.div2 (length p)) in *.
  destruct (Nat.eq_dec q 1) as [Q1|Q1].
  - assert (P2 : length p = 2%nat) by lia. clear - P2.
    destruct p as [|a [|b [|c p]]]; try discriminate P2. reflexivity.
  - unfold Benchmark.unsplit_bytes.
    assert (Hlen : len (p ++ [x]) = 2 * Z.of_nat q + 1).
    { unfold len. rewrite length_app. cbn [length]. lia. }
    assert (Hq : len (p ++ [x]) / 2 = Z.of_nat q) by zlia.
    rewrite Hq, slice_prefix, Nat2Z.id by lia.
    unfold Np.assign_stride2 at 1. unfold Py.stride2.
    change (skipn 0 ?l) with l.
    rewrite every_other_length, empty_length.
    replace (Z.to_nat (len (p ++ [x]))) with (S (2 * q)) by lia.
    replace (Nat.div2 (S (S (2 * q)))) with (S q)
      by (cbn [Nat.div2]; now rewrite Nat.div2_double).
    rewrite broadcast_mismatch; [reflexivity | |];
      rewrite length_firstn, length_app; cbn [length]; lia.
Qed.

(** X10.  [unsplit_bytes] accepts exactly the buffers of even length: on
    one of odd length numpy raises [ValueError]; on one of even length it
    returns a buffer of the same length, and [split_bytes] of that buffer
    is the buffer it came from, so that on even lengths the two functions
    are inverse of each other in both directions. *)
Theorem unsplit_bytes_domain :
  forall d : list byte,
    (Nat.even (length d) = false ->
     Benchmark.unsplit_bytes d = inl ValueError) /\
    (Nat.even (length d) = true ->
     exists r,
       Benchmark.unsplit_bytes d = inr r /\ length r = length d /\
       Benchmark.split_bytes r = d).
Proof.
  intros d. split; intros Hd.
  - now apply unsplit_bytes_odd.
  - destruct (unsplit_bytes_even d Hd) as (r & Hr & Hlen & E1 & E2).
    exists r. split; [exact Hr|]. split; [exact Hlen|].
    rewrite split_bytes_even by now rewrite Hlen.
    rewrite E1, E2. apply firstn_skipn.
Qed.

(** X11.  The codec's transform is the benchmark's [split_bytes] followed
    by the last byte of the chunk when the chunk has odd length; the
    benchmark's output has the length of its input rounded down to an even
    number. *)
Theorem byte_splitting_extends_split_bytes :
  forall d : list byte,
    byte_splitting d
    = Benchmark.split_bytes d ++
      (if Nat.even (length d) then [] else Py.slice d (Some (-1)) None) /\
    len (Benchmark.split_bytes d) = len d - len d mod 2.
Proof.
  intros d. destruct (Nat.even (length d)) eqn:Hd.
  - rewrite byte_splitting_even, split_bytes_even, app_nil_r by assumption.
    split; [reflexivity|].
    destruct (planes_length d Hd) as [LE LO].
    destruct (div2_even_half _ Hd) as [_ H2].
    unfold len. rewrite length_app, LE, LO. zlia.
  - destruct (odd_length_last _ Hd) as (p & x & -> & Hp).
    rewrite byte_splitting_odd, split_bytes_odd, slice_last by assumption.
    split; [now rewrite app_assoc|].
    destruct (planes_length p Hp) as [LE LO].
    destruct (div2_even_half _ Hp) as [_ H2].
    unfold len. rewrite !length_app, LE, LO. cbn [length]. zlia.
Qed.

End TransformFacts.

Lemma short_payload_broadcast_witness :
  exists restored,
    Compressor.reverse_byte_splitting (2 * Z.of_nat (length [x0a; x0c]))
      ([x0a; x0c] ++ [x0b]) = inr restored /\
    Py.every_other restored = [x0a; x0c].
Proof.
  destruct (@short_payload_broadcast [x0a; x0c] x0b ltac:(discriminate))
    as (r & H1 & H2 & _).
  exists r. split; assumption.
Defined.

Lemma unsplit_bytes_domain_witness :
  Benchmark.unsplit_bytes [x0a; x0b; x0c] = inl ValueError.
Proof.
  apply (proj1 (unsplit_bytes_domain [x0a; x0b; x0c])). reflexivity.
Defined.

(** ** The custom strategy and the harness of the benchmark *)

Section BenchmarkFacts.
Context {zstd : Backend}.
Import Benchmark.
Local Open Scope Z_scope.

Lemma custom_round_trip_core (data : list byte) (level : Z) :
  lossless zstd ->
  decompress_custom (compress_custom data level)
  = inr (if Nat.even (length data) then data else removelast data).
Proof.
  intros L. unfold decompress_custom, compress_custom. rewrite L.
  destruct (Nat.even (length data)) eqn:Hd.
  - rewrite split_bytes_even by assumption. now apply unsplit_bytes_planes.
  - destruct (odd_length_last _ Hd) as (p & x & -> & Hp).
    rewrite removelast_last, split_bytes_odd by assumption.
    now apply unsplit_bytes_planes.
Qed.

(** X12.  With a backend that loses nothing, [decompress_custom] after
    [compress_custom] never raises; it gives the data back when their
    length is even and the data without their last byte when it is odd,
    so one byte is lost exactly on odd lengths. *)
Theorem custom_round_trip :
  forall (data : list byte) (level : Z),
    lossless zstd ->
    decompress_custom (compress_custom data level)
    = inr (if Nat.even (length data) then data else removelast data) /\
    (decompress_custom (compress_custom data level) = inr data <->
     Nat.even (length data) = true).
Proof.
  intros data level L. rewrite custom_round_trip_core by assumption.
  split; [reflexivity|].
  destruct (Nat.even (length data)) eqn:Hd; split; auto.
  - intros E. injection E as E.
    destruct (odd_length_last _ Hd) as (p & x & -> & _).
    rewrite removelast_last in E.
    apply (f_equal (@length byte)) in E. rewrite length_app in E.
    cbn [length] in E. lia.
  - discriminate.
Qed.

(** X13.  Run on the custom strategy, [benchmark_compressor] fails its own
    assertion on every [TEST_DATA] of odd length, because the restored
    data are one byte short, and returns its report on every [TEST_DATA]
    of even length; the ratio of the report is [0] when the compressed
    data are empty, no division being made then. *)
Theorem benchmark_compressor_on_custom :
  forall (TEST_DATA : list byte) (name : string) (level : Z),
    lossless zstd ->
    let size := len (compress_custom TEST_DATA level) in
    benchmark_compressor TEST_DATA name
      (fun d => inr (compress_custom d level)) decompress_custom
    = if Nat.even (length TEST_DATA)
      then inr {| name := name;
                  ratio := if size =? 0 then Int 0
                           else TrueDiv (len TEST_DATA) size;
                  size_mb := TrueDiv size (1024 * 1024) |}
      else inl AssertionError.
Proof.
  intros TEST_DATA name level L size. unfold benchmark_compressor.
  rewrite custom_round_trip_core by assumption. fold size.
  destruct (Nat.even (length TEST_DATA)) eqn:Hd.
  - rewrite Z.eqb_refl. do 2 f_equal.
    destruct (Z.ltb_spec 0 size), (Z.eqb_spec size 0);
      try reflexivity; unfold size, len in *; lia.
  - destruct (odd_length_last _ Hd) as (p & x & -> & _).
    rewrite removelast_last.
    replace (len p =? len (p ++ [x])) with false; [reflexivity|].
    symmetry. apply Z.eqb_neq. unfold len. rewrite length_app.
    cbn [length]. lia.
Qed.

End BenchmarkFacts.

Lemma custom_round_trip_witness :
  @Benchmark.decompress_custom Framed.backend
    (@Benchmark.compress_custom Framed.backend [x0a; x0b; x0c] 3)
  = inr [x0a; x0b].
Proof.
  apply (@custom_round_trip Framed.backend [x0a; x0b; x0c] 3%Z).
  exact framed_lossless.
Defined.

Lemma benchmark_compressor_on_custom_witness :
  @Benchmark.benchmark_compressor [x0a; x0b; x0c] EmptyString
    (fun d => inr (@Benchmark.compress_custom Framed.backend d 3))
    (@Benchmark.decompress_custom Framed.backend)
  = inl Benchmark.AssertionError.
Proof.
  apply (@benchmark_compressor_on_custom Framed.backend [x0a; x0b; x0c]
           EmptyString 3%Z).
  exact framed_lossless.
Defined.

(** ** The files of the benchmark *)

Section FileFacts.
Import Benchmark.
Local Open Scope Z_scope.

(** One turn of the loop of [cleanup]. *)
Lemma remove_if_exists (files : fs) (f p : string) :
  (if path_exists files f then os_remove files f else files) p
  = if String.eqb p f then None else files p.
Proof.
  unfold path_exists, os_remove.
  destruct (files f) as [content|] eqn:E; [reflexivity|].
  destruct (String.eqb_spec p f) as [->|_]; [exact E | reflexivity].
Qed.

Lemma cleanup_at (files : fs) (p : string) :
  cleanup files p
  = if String.eqb p TEMP_INPUT || String.eqb p TEMP_COMPRESSED ||
       String.eqb p TEMP_RESTORED
    then None else files p.
Proof.
  unfold cleanup. cbn [fold_left]. rewrite !remove_if_exists.
  destruct (String.eqb p TEMP_RESTORED), (String.eqb p TEMP_COMPRESSED),
    (String.eqb p TEMP_INPUT); reflexivity.
Qed.

(** X14.  [cleanup] raises nothing whether the temporary files exist or
    not; afterwards none of the three temporary files exists, every other
    file, the model among them, is as before, and a second [cleanup]
    changes nothing. *)
Theorem cleanup_removes_temporary_files :
  forall files : fs,
    (forall p, In p [TEMP_INPUT; TEMP_COMPRESSED; TEMP_RESTORED] ->
               path_exists (cleanup files) p = false) /\
    (forall p, ~ In p [TEMP_INPUT; TEMP_COMPRESSED; TEMP_RESTORED] ->
               cleanup files p = files p) /\
    cleanup files INPUT_FILE = files INPUT_FILE /\
    (forall p, cleanup (cleanup files) p = cleanup files p).
Proof.
  intros files. split; [|split; [|split]].
  - intros p Hp. unfold path_exists. rewrite cleanup_at.
    cbn [In] in Hp.
    destruct Hp as [<-|[<-|[<-|[]]]]; reflexivity.
  - intros p Hp. rewrite cleanup_at. cbn [In] in Hp.
    destruct (String.eqb_spec p TEMP_INPUT) as [->|_]; [tauto|].
    destruct (String.eqb_spec p TEMP_COMPRESSED) as [->|_]; [tauto|].
    destruct (String.eqb_spec p TEMP_RESTORED) as [->|_]; [tauto|].
    reflexivity.
  - now rewrite cleanup_at.
  - intros p. rewrite !cleanup_at.
    destruct (_ || _ || _); reflexivity.
Qed.

(** X15.  After [load_data], [TEST_DATA] holds at most [CHUNK_SIZE] bytes
    when the model file exists, namely its first [CHUNK_SIZE] bytes (the
    whole file when it is shorter), the temporary input file holds exactly
    [TEST_DATA], and no other file has changed; a [cleanup] after it leaves
    every file but the three temporary ones as it was before
    [load_data]. *)
Theorem load_data_then_cleanup :
  forall (urandom : Z -> list byte) (files : fs),
    let TEST_DATA := fst (load_data urandom files) in
    let files' := snd (load_data urandom files) in
    files' TEMP_INPUT = Some TEST_DATA /\
    (forall p, p <> TEMP_INPUT -> files' p = files p) /\
    (forall content,
        files INPUT_FILE = Some content ->
        len TEST_DATA = Z.min CHUNK_SIZE (len content) /\
        exists rest, content = TEST_DATA ++ rest) /\
    (files INPUT_FILE = None -> TEST_DATA = urandom CHUNK_SIZE) /\
    (forall p, ~ In p [TEMP_INPUT; TEMP_COMPRESSED; TEMP_RESTORED] ->
               cleanup files' p = files p).
Proof.
  intros urandom files TEST_DATA files'.
  subst TEST_DATA files'. unfold load_data. cbn [fst snd].
  assert (W : forall data p, p <> TEMP_INPUT ->
                write_file files TEMP_INPUT data p = files p).
  { intros data p Hp. unfold write_file.
    destruct (String.eqb_spec p TEMP_INPUT); [contradiction | reflexivity]. }
  split; [|split; [|split; [|split]]].
  - unfold write_file. now rewrite String.eqb_refl.
  - intros p Hp. now apply W.
  - intros content E. rewrite E.
    assert (HC : 0 <= CHUNK_SIZE) by (unfold CHUNK_SIZE; lia).
    rewrite read_firstn_skipn by exact HC. cbn [fst]. split.
    + unfold len. rewrite length_firstn. lia.
    + exists (skipn (Z.to_nat CHUNK_SIZE) content).
      symmetry. apply firstn_skipn.
  - intros E. now rewrite E.
  - intros p Hp. rewrite cleanup_at. cbn [In] in Hp.
    destruct (String.eqb_spec p TEMP_INPUT) as [->|Hn]; [tauto|].
    destruct (String.eqb_spec p TEMP_COMPRESSED) as [->|_]; [tauto|].
    destruct (String.eqb_spec p TEMP_RESTORED) as [->|_]; [tauto|].
    now apply W.
Qed.

End FileFacts.

(** ** The script of [compressor.py] *)

Lemma outcome_returned_dec (o : outcome) : {o = Returned} + {o <> Returned}.
Proof. destruct o; [now left | right; discriminate | right; discriminate]. Qed.

Section ScriptFacts.
Context {zstd : Backend}.
Import Compressor.
Local Open Scope Z_scope.

(** X16.  With a backend that loses nothing, the script never prints
    [Size Verification: FAILED]: it prints [OK] exactly when
    [compress_file] returns, stops on the exception of [compress_file]
    otherwise (on an empty input file, [ZeroDivisionError]), and reports a
    missing input file without calling anything. *)
Theorem script_verification :
  lossless zstd ->
  main None = NotFound /\
  main (Some []) = Uncaught (Raised ZeroDivisionError) /\
  forall data : list byte,
    main (Some data) <> SizeVerification false /\
    (main (Some data) = SizeVerification true <->
     snd (compress_file data default_chunk_size default_level) = Returned) /\
    (snd (compress_file data default_chunk_size default_level) <> Returned ->
     main (Some data)
     = Uncaught (snd (compress_file data default_chunk_size default_level))).
Proof.
  intros L. split; [reflexivity|]. split.
  { unfold main. now rewrite compress_file_empty_input. }
  intros data.
  assert (R : snd (compress_file data default_chunk_size default_level)
              = Returned ->
              main (Some data) = SizeVerification true).
  { intros Ho. unfold main.
    pose proof (@decompress_compress_file _ data default_chunk_size
                  default_level L) as RT.
    destruct (compress_file data default_chunk_size default_level)
      as [c o]. cbn [fst snd] in *. subst o.
    rewrite RT; [|unfold default_chunk_size; lia | discriminate].
    now rewrite Z.eqb_refl. }
  assert (N : snd (compress_file data default_chunk_size default_level)
              <> Returned ->
              main (Some data)
              = Uncaught
                  (snd (compress_file data default_chunk_size
                          default_level))).
  { intros Ho. unfold main.
    destruct (compress_file data default_chunk_size default_level)
      as [c o]. cbn [fst snd] in *.
    destruct o; [now contradiction Ho | reflexivity | reflexivity]. }
  destruct (outcome_returned_dec
              (snd (compress_file data default_chunk_size default_level)))
    as [Ho|Ho].
  - rewrite (R Ho). repeat split; try discriminate; auto.
    intros H. now contradiction H.
  - rewrite (N Ho). repeat split; try discriminate; auto.
    intros H. now contradiction Ho.
Qed.

End ScriptFacts.

Lemma script_verification_witness :
  @Compressor.main Framed.backend None = Compressor.NotFound /\
  @Compressor.main Framed.backend (Some [])
  = Compressor.Uncaught (Raised ZeroDivisionError).
Proof.
  destruct (@script_verification Framed.backend framed_lossless)
    as (H1 & H2 & _).
  split; assumption.
Defined.

